(** * SubjectivePdfToTextDataSource: a shallow embedding and its properties

    The Python class [SubjectivePdfToTextDataSource] converts one PDF file
    into a JSON document.  This development embeds its methods
    ([validate_config], [is_valid_pdf], [compute_file_hash],
    [extract_text_from_pdf], [create_json_structure], [fetch]) as functions
    in a state-and-exception monad over an explicit model of the instance
    attributes and of the file system, and proves the properties the
    specification states about them. *)

From Stdlib Require Import DecimalString Strings.Byte.
From Equations Require Import Equations.
From stdpp Require Import base option list sorting strings gmap.

Set Default Proof Using "Type".
Local Open Scope nat_scope.

(** ** Python strings

    A Python [str] is a sequence of Unicode code points and [len] counts
    code points; a [str] is therefore a list of code points (numbers). *)

Abbreviation char := N (only parsing).
Abbreviation str := (list N).

(** The code points of a literal written with ASCII characters. *)
Definition lit (s : string) : str :=
  Ascii.N_of_ascii <$> String.list_ascii_of_string s.

Definition NL : char := 10%N.
Definition SLASH : char := 47%N.
Definition DOT : char := 46%N.

(** Truthiness of a string: [if text:] holds for a non-empty string. *)
Definition truthy (s : str) : bool :=
  match s with [] => false | _ :: _ => true end.

(** [len(s)]. *)
Definition len (s : str) : nat := length s.

(** [sep.join(parts)]. *)
Fixpoint join (sep : str) (parts : list str) : str :=
  match parts with
  | [] => []
  | [p] => p
  | p :: rest => p ++ sep ++ join sep rest
  end.

(** [s.startswith(pre)] and [s.endswith(suf)]. *)
Fixpoint startswith (s pre : str) {struct pre} : bool :=
  match pre, s with
  | [], _ => true
  | _ :: _, [] => false
  | a :: pre', b :: s' => bool_decide (a = b) && startswith s' pre'
  end.

Definition endswith (s suf : str) : bool :=
  startswith (reverse s) (reverse suf).

(** [needle in hay]: [needle] occurs as a contiguous substring. *)
Fixpoint contains (hay needle : str) : bool :=
  startswith hay needle ||
  match hay with
  | [] => false
  | _ :: hay' => contains hay' needle
  end.

(** [str.lower()] on one code point.  The letters [A-Z] go to [a-z]; the
    case mapping of the code points outside the ASCII range is not needed
    to decide a match against an ASCII suffix and is left as the identity. *)
Definition lower_char (c : char) : char :=
  if ((65 <=? c) && (c <=? 90))%N then (c + 32)%N else c.

Definition lower (s : str) : str := lower_char <$> s.

(** [str(n)] / the rendering of an [int] inside an f-string. *)
Definition str_of_nat (n : nat) : str :=
  lit (NilZero.string_of_uint (Nat.to_uint n)).

(** ** [os.path], POSIX flavour

    The functions below follow [posixpath] and [genericpath]. *)

(** [p.rfind(c) + 1]: one past the last occurrence of [c], [0] when there
    is none. *)
Fixpoint rfind1 (c : char) (p : str) : nat :=
  match p with
  | [] => 0
  | x :: r =>
      match rfind1 c r with
      | 0 => if bool_decide (x = c) then 1 else 0
      | S i => S (S i)
      end
  end.

(** [s.lstrip(c)] and [s.rstrip(c)] for a single character [c]. *)
Fixpoint lstrip (c : char) (s : str) : str :=
  match s with
  | [] => []
  | x :: r => if bool_decide (x = c) then lstrip c r else s
  end.

Definition rstrip (c : char) (s : str) : str :=
  reverse (lstrip c (reverse s)).

Definition all_sep (s : str) : bool := forallb (λ x, bool_decide (x = SLASH)) s.

Definition basename (p : str) : str := drop (rfind1 SLASH p) p.

Definition dirname (p : str) : str :=
  let head := take (rfind1 SLASH p) p in
  if truthy head && negb (all_sep head) then rstrip SLASH head else head.

(** [genericpath._splitext(p, '/', None, '.')]: the extension starts at the
    last dot of the last path component, unless that component has only
    dots before it. *)
Definition splitext (p : str) : str * str :=
  let sepIndex1 := rfind1 SLASH p in
  let dotIndex1 := rfind1 DOT p in
  if bool_decide (sepIndex1 < dotIndex1) then
    let dotIndex := pred dotIndex1 in
    let leading := drop sepIndex1 (take dotIndex p) in
    if forallb (λ x, bool_decide (x = DOT)) leading
    then (p, [])
    else (take dotIndex p, drop dotIndex p)
  else (p, []).

(** [os.path.join(a, b)]. *)
Definition path_join (a b : str) : str :=
  if startswith b [SLASH] then b
  else if negb (truthy a) || endswith a [SLASH] then a ++ b
  else a ++ [SLASH] ++ b.

(** [x or y] on strings. *)
Definition str_or (x y : str) : str := if truthy x then x else y.

(** ** Exceptions and results *)

Inductive exn :=
| FileNotFoundError
| IsADirectoryError
| PermissionError
| OSError
| EmptyFileError
| PdfReadError
| PageError
| CallbackError.

Inductive Result (A : Type) :=
| Ok (a : A)
| Raise (e : exn).
Arguments Ok {A} a.
Arguments Raise {A} e.

#[export] Instance Result_ret : MRet Result := λ A a, Ok a.
#[export] Instance Result_bind : MBind Result := λ A B k m,
  match m with
  | Ok a => k a
  | Raise e => Raise e
  end.

(** ** The documents the converter builds *)

(** One entry of [extracted_data['pages']]. *)
Record PageData := mkPageData {
  page_number : nat;
  text : str;
  character_count : nat
}.

(** The dictionary [extracted_data] of [extract_text_from_pdf]. *)
Record ExtractedData := mkExtractedData {
  ed_pages : list PageData;
  ed_full_text : str;
  ed_total_pages : nat;
  ed_total_characters : nat
}.

(** The ["metadata"] node of the JSON structure. *)
Record Metadata := mkMetadata {
  name : str;
  data_type : str;
  timestamp : str;
  pdf_file_name : str;
  pdf_file_path_abs : str;
  pdf_file_size : nat;
  pdf_file_hash : str;
  pdf_modified_time : str;
  total_pages : nat;
  total_characters : nat;
  pages_with_text : nat;
  extraction_timestamp : str
}.

(** The ["content"] node of the JSON structure. *)
Record Content := mkContent {
  full_text : str;
  pages : list PageData
}.

Record Document := mkDocument {
  metadata : Metadata;
  content : Content
}.

(** ** The environment: files, clock, libraries *)

(** A regular file.  [f_readable = false] makes [open] for reading raise;
    [f_bad_offset = Some k] makes every read that covers byte [k] raise. *)
Record File := mkFile {
  f_data : list byte;
  f_mtime : Z;
  f_readable : bool;
  f_bad_offset : option nat
}.

(** The file system and the clock.  [denied] holds the paths that the
    system refuses to create or to write. *)
Record World := mkWorld {
  files : gmap (list N) File;
  dirs : gset (list N);
  denied : gset (list N);
  cwd : str;
  clock : Z
}.

(** What [page.extract_text()] does for one page of an opened document. *)
Abbreviation Page := (Result str).

(** A [PdfReader] object: [reader.pages] is loaded on first use and may
    fail then. *)
Record Reader := mkReader {
  reader_pages : Result (list Page)
}.

(** The libraries the converter delegates to: the SHA-256 digest of a byte
    string, the PDF parser, the JSON serialiser (with its UTF-8 encoding),
    [datetime.isoformat] and [os.path.abspath]. *)
Class Platform := {
  sha256 : list byte → list byte;
  pdf_parse : list byte → Result Reader;
  json_dump : Document → list byte;
  isoformat : Z → str;
  abspath : str → str → str
}.

(** [os.path.isfile], [os.path.exists], [os.path.getsize], [os.stat]. *)
Definition isfile (w : World) (p : str) : bool :=
  bool_decide (is_Some (files w !! p)).

Definition path_exists (w : World) (p : str) : bool :=
  isfile w p || bool_decide (p ∈ dirs w).

Definition stat (w : World) (p : str) : Result File :=
  match files w !! p with
  | Some f => Ok f
  | None => Raise FileNotFoundError
  end.

Definition getsize (w : World) (p : str) : Result nat :=
  f ← stat w p; mret (length (f_data f)).

(** [open(p, "rb")]. *)
Definition open_rb (w : World) (p : str) : Result File :=
  match files w !! p with
  | Some f => if f_readable f then Ok f else Raise PermissionError
  | None =>
      if bool_decide (p ∈ dirs w) then Raise IsADirectoryError
      else Raise FileNotFoundError
  end.

(** [f.read(n)] with the file position at [pos]. *)
Definition file_read (f : File) (pos n : nat) : Result (list byte) :=
  let block := take n (drop pos (f_data f)) in
  match f_bad_offset f with
  | Some k =>
      if bool_decide (pos ≤ k < pos + length block) then Raise OSError
      else Ok block
  | None => Ok block
  end.

(** [os.makedirs(d, exist_ok=True)]. *)
Definition makedirs (w : World) (d : str) : Result World :=
  if bool_decide (d ∈ denied w) then Raise PermissionError
  else Ok (mkWorld (files w) ({[d]} ∪ dirs w) (denied w) (cwd w) (clock w)).

(** [with open(p, 'w', encoding='utf-8') as f: f.write(data)]. *)
Definition write_file (w : World) (p : str) (data : list byte) : Result World :=
  if bool_decide (p ∈ dirs w) then Raise IsADirectoryError
  else if truthy (dirname p) && negb (bool_decide (dirname p ∈ dirs w))
  then Raise FileNotFoundError
  else if bool_decide (p ∈ denied w) then Raise PermissionError
  else Ok (mkWorld (<[p := mkFile data (clock w) true None]> (files w))
                   (dirs w) (denied w) (cwd w) (clock w)).

(** [PdfReader(p)]: reads the whole file and parses it. *)
Definition PdfReader `{Platform} (w : World) (p : str) : Result Reader :=
  f ← open_rb w p;
  data ← file_read f 0 (length (f_data f));
  match data with
  | [] => Raise EmptyFileError
  | _ :: _ => pdf_parse data
  end.

(** ** The instance and the monad of its methods *)

Record Self := mkSelf {
  pdf_file_path : str;
  output_file_path : str;
  include_page_numbers : bool;
  _total_items : nat;
  _processed_items : nat;
  _total_processing_time : Z;
  _fetch_completed : bool;
  progress_callback : option (nat → nat → Result unit);
  status_callback : option (str → Result unit)
}.

Definition set_output_file_path (v : str) (s : Self) : Self :=
  mkSelf (pdf_file_path s) v (include_page_numbers s) (_total_items s)
    (_processed_items s) (_total_processing_time s) (_fetch_completed s)
    (progress_callback s) (status_callback s).

Definition set_total_items (v : nat) (s : Self) : Self :=
  mkSelf (pdf_file_path s) (output_file_path s) (include_page_numbers s) v
    (_processed_items s) (_total_processing_time s) (_fetch_completed s)
    (progress_callback s) (status_callback s).

Definition set_processed_items (v : nat) (s : Self) : Self :=
  mkSelf (pdf_file_path s) (output_file_path s) (include_page_numbers s)
    (_total_items s) v (_total_processing_time s) (_fetch_completed s)
    (progress_callback s) (status_callback s).

Definition set_total_processing_time (v : Z) (s : Self) : Self :=
  mkSelf (pdf_file_path s) (output_file_path s) (include_page_numbers s)
    (_total_items s) (_processed_items s) v (_fetch_completed s)
    (progress_callback s) (status_callback s).

Definition set_fetch_completed (v : bool) (s : Self) : Self :=
  mkSelf (pdf_file_path s) (output_file_path s) (include_page_numbers s)
    (_total_items s) (_processed_items s) (_total_processing_time s) v
    (progress_callback s) (status_callback s).

Record State := mkState {
  self : Self;
  world : World
}.

(** A method runs on the state and ends with a value or an exception; the
    changes made before a [raise] stay. *)
Definition M (A : Type) : Type := State → Result A * State.

#[export] Instance M_ret : MRet M := λ A a st, (Ok a, st).
#[export] Instance M_bind : MBind M := λ A B k m st,
  match m st with
  | (Ok a, st') => k a st'
  | (Raise e, st') => (Raise e, st')
  end.

Definition get_self : M Self := λ st, (Ok (self st), st).
Definition get_world : M World := λ st, (Ok (world st), st).
Definition modify_self (f : Self → Self) : M unit :=
  λ st, (Ok (), mkState (f (self st)) (world st)).
Definition put_world (w : World) : M unit :=
  λ st, (Ok (), mkState (self st) w).
Definition lift {A} (r : Result A) : M A := λ st, (r, st).

(** [try: body except Exception as e: handler(e)]. *)
Definition try_except {A} (body : M A) (handler : exn → M A) : M A :=
  λ st,
    match body st with
    | (Ok a, st') => (Ok a, st')
    | (Raise e, st') => handler e st'
    end.

(** [datetime.now()]: reads the clock, which then moves on. *)
Definition datetime_now : M Z := λ st,
  let w := world st in
  (Ok (clock w),
   mkState (self st) (mkWorld (files w) (dirs w) (denied w) (cwd w) (clock w + 1))).

(** A [for] loop whose body runs in the monad. *)
Fixpoint for_each {A S : Type} (body : S → A → M S) (l : list A) (acc : S) : M S :=
  match l with
  | [] => mret acc
  | x :: l' => acc' ← body acc x; for_each body l' acc'
  end.

(** ** The methods of [SubjectivePdfToTextDataSource] *)

Section Converter.
Context `{Platform}.

Definition validate_config : M bool :=
  s ← get_self;
  w ← get_world;
  if negb (truthy (pdf_file_path s)) then mret false
  else if negb (isfile w (pdf_file_path s)) then mret false
  else if negb (endswith (lower (pdf_file_path s)) (lit ".pdf")) then mret false
  else
    (if negb (truthy (output_file_path s)) then
       let base_name := (splitext (basename (pdf_file_path s))).1 in
       let output_dir := str_or (dirname (pdf_file_path s)) (lit ".") in
       modify_self
         (set_output_file_path (path_join output_dir (base_name ++ lit ".json")))
     else mret ());;
    mret true.

Definition is_valid_pdf (pdf_path : str) : M bool :=
  w ← get_world;
  if negb (isfile w pdf_path) then mret false
  else
    size ← lift (getsize w pdf_path);
    if bool_decide (size = 0) then mret false
    else
      try_except
        (_ ← lift (PdfReader w pdf_path); mret true)
        (λ _, mret false).

(** The size of the blocks [compute_file_hash] reads. *)
Definition BLOCK_SIZE : nat := 4096.

(** The loop [for byte_block in iter(lambda: f.read(4096), b""):
    sha256_hash.update(byte_block)].  The hash object is represented by the
    bytes it has been fed: [hashlib] specifies that repeated [update]s are
    equivalent to one [update] with the concatenation. *)
Equations? read_blocks (f : File) (pos : nat) (fed : list byte) :
    Result (list byte) by wf (length (f_data f) - pos) lt :=
  read_blocks f pos fed with Logic.inspect (file_read f pos BLOCK_SIZE) := {
    | exist _ (Raise e) _ => Raise e
    | exist _ (Ok []) _ => Ok fed
    | exist _ (Ok (b :: block)) Hread =>
        read_blocks f (pos + length (b :: block)) (fed ++ b :: block) }.
Proof.
  assert (Hlen : length (b :: block) ≤ length (f_data f) - pos).
  { unfold file_read in Hread.
    assert (Hb : b :: block = take BLOCK_SIZE (drop pos (f_data f))).
    { destruct (f_bad_offset f); [case_bool_decide|]; congruence. }
    rewrite Hb, length_take, length_drop. lia. }
  simpl in *. lia.
Qed.

(** The lowercase hexadecimal digit of a number below 16. *)
Definition hex_digit (d : N) : char :=
  if (d <? 10)%N then (48 + d)%N else (87 + d)%N.

Definition hex_byte (b : byte) : str :=
  [hex_digit (Byte.to_N b / 16); hex_digit (Byte.to_N b mod 16)].

(** [sha256_hash.hexdigest()] of a hash object that was fed [fed]. *)
Definition hexdigest (fed : list byte) : str :=
  mbind (M := list) hex_byte (sha256 fed).

Definition compute_file_hash (file_path : str) : M str :=
  let sha256_hash : list byte := [] in
  try_except
    (w ← get_world;
     f ← lift (open_rb w file_path);
     fed ← lift (read_blocks f 0 sha256_hash);
     mret (hexdigest fed))
    (λ _, mret []).

(** The base class's [increment_processed_items]. *)
Definition increment_processed_items : M unit :=
  modify_self (λ s, set_processed_items (_processed_items s + 1) s).

(** The f-string ["\n--- Page {n} ---\n"]. *)
Definition page_separator (n : nat) : str :=
  [NL] ++ lit "--- Page " ++ str_of_nat n ++ lit " ---" ++ [NL].

(** The body of the loop over [range(total_pages)]; the accumulator holds
    [extracted_data['pages']] and [full_text_parts]. *)
Definition extract_page (reader_pages : list Page)
    (acc : list PageData * list str) (page_num : nat) :
    M (list PageData * list str) :=
  try_except
    (page ← lift (match reader_pages !! page_num with
                  | Some page => Ok page
                  | None => Raise PageError
                  end);
     text ← lift page;
     if truthy text then
       let page_data := mkPageData (page_num + 1) text (len text) in
       increment_processed_items;;
       mret (acc.1 ++ [page_data], acc.2 ++ [text])
     else mret acc)
    (λ _, mret acc).

Definition formatted_parts (pages : list PageData) : list str :=
  page_data ← pages; [page_separator (page_number page_data); text page_data].

Definition extract_text_from_pdf (pdf_path : str) : M ExtractedData :=
  try_except
    (w ← get_world;
     reader ← lift (PdfReader w pdf_path);
     pgs ← lift (reader_pages reader);
     let total_pages := length pgs in
     '(pages, full_text_parts) ← for_each (extract_page pgs) (seq 0 total_pages) ([], []);
     s ← get_self;
     let full_text :=
       if include_page_numbers s
       then join [NL] (formatted_parts pages)
       else join [NL; NL] full_text_parts in
     mret (mkExtractedData pages full_text total_pages (len full_text)))
    (λ e, lift (Raise e)).

Definition create_json_structure (pdf_path : str) (extracted_data : ExtractedData) :
    M Document :=
  w ← get_world;
  file_stat ← lift (stat w pdf_path);
  let file_name := basename pdf_path in
  let file_base_name := (splitext file_name).1 in
  let file_size := length (f_data file_stat) in
  file_hash ← compute_file_hash pdf_path;
  let modified_time := isoformat (f_mtime file_stat) in
  now ← datetime_now;
  let current_timestamp := isoformat now in
  mret (mkDocument
          (mkMetadata file_base_name (lit "from_pdf") current_timestamp file_name
             (abspath (cwd w) pdf_path) file_size file_hash modified_time
             (ed_total_pages extracted_data) (ed_total_characters extracted_data)
             (length (ed_pages extracted_data)) current_timestamp)
          (mkContent (ed_full_text extracted_data) (ed_pages extracted_data))).

(** The f-string passed to the status callback. *)
Definition status_message (output_file_path : str) : str :=
  lit "Successfully converted PDF to JSON: " ++ basename output_file_path.

Definition fetch : M (list Document) :=
  try_except
    (ok ← validate_config;
     if negb ok then mret []
     else
       s ← get_self;
       valid ← is_valid_pdf (pdf_file_path s);
       if negb valid then mret []
       else
         w ← get_world;
         reader ← lift (PdfReader w (pdf_file_path s));
         pgs ← lift (reader_pages reader);
         let total_pages := length pgs in
         modify_self (set_total_items total_pages);;
         start_time ← datetime_now;
         extracted_data ← extract_text_from_pdf (pdf_file_path s);
         json_structure ← create_json_structure (pdf_file_path s) extracted_data;
         let output_dir := dirname (output_file_path s) in
         w ← get_world;
         (if truthy output_dir && negb (path_exists w output_dir)
          then w' ← lift (makedirs w output_dir); put_world w'
          else mret ());;
         w ← get_world;
         w' ← lift (write_file w (output_file_path s) (json_dump json_structure));
         put_world w';;
         end_time ← datetime_now;
         modify_self (set_total_processing_time (end_time - start_time));;
         modify_self (set_fetch_completed true);;
         s ← get_self;
         match progress_callback s with
         | Some callback => lift (callback (_total_items s) (_processed_items s))
         | None => mret ()
         end;;
         match status_callback s with
         | Some callback =>
             lift (callback (status_message (output_file_path s)))
         | None => mret ()
         end;;
         mret [json_structure])
    (λ _, mret []).

End Converter.

(** ** SHA-256

    The digest of FIPS 180-4 on 32-bit words held in [N], used to evaluate
    [compute_file_hash] on concrete files. *)

Module SHA256.
Local Open Scope N_scope.

Definition mask (x : N) : N := N.land x 0xffffffff.
Definition add32 (x y : N) : N := mask (x + y).
Definition rotr (n x : N) : N :=
  mask (N.lor (N.shiftr x n) (N.shiftl x (32 - n))).
Definition not32 (x : N) : N := N.lxor x 0xffffffff.

Definition Ch (x y z : N) : N := N.lxor (N.land x y) (N.land (not32 x) z).
Definition Maj (x y z : N) : N :=
  N.lxor (N.lxor (N.land x y) (N.land x z)) (N.land y z).
Definition Sigma0 (x : N) : N := N.lxor (N.lxor (rotr 2 x) (rotr 13 x)) (rotr 22 x).
Definition Sigma1 (x : N) : N := N.lxor (N.lxor (rotr 6 x) (rotr 11 x)) (rotr 25 x).
Definition sigma0 (x : N) : N := N.lxor (N.lxor (rotr 7 x) (rotr 18 x)) (N.shiftr x 3).
Definition sigma1 (x : N) : N := N.lxor (N.lxor (rotr 17 x) (rotr 19 x)) (N.shiftr x 10).

(** The round constants and the initial hash value are the first 32 bits
    of the fractional parts of the cube roots of the first 64 primes and of
    the square roots of the first 8 primes; they are computed here. *)

Definition is_prime (p : nat) : bool :=
  forallb (λ d, negb (p mod d =? 0)%nat) (seq 2 (p - 2)).

Definition primes (n : nat) : list N :=
  N.of_nat <$> take n (filter (λ p, is_prime p = true) (seq 2 310)).

(** The largest [r] below [2 ^ bits] with [r ^ k <= x], bit by bit. *)
Fixpoint iroot (k : N) (x : N) (bits : nat) (r : N) : N :=
  match bits with
  | O => r
  | S bits' =>
      let r' := r + N.shiftl 1 (N.of_nat bits') in
      iroot k x bits' (if r' ^ k <=? x then r' else r)
  end.

Definition K : list N :=
  (λ p, mask (iroot 3 (N.shiftl p 96) 40 0)) <$> primes 64.

Definition H0 : list N :=
  (λ p, mask (iroot 2 (N.shiftl p 64) 40 0)) <$> primes 8.

(** The [n] low bytes of [x], most significant first. *)
Fixpoint be_bytes (n : nat) (x : N) : list N :=
  match n with
  | O => []
  | S n' => N.land (N.shiftr x (8 * N.of_nat n')) 0xff :: be_bytes n' x
  end.

(** The message followed by the bit 1, zeros up to 56 modulo 64 bytes, and
    the length in bits on 8 bytes. *)
Definition pad (msg : list N) : list N :=
  let n := length msg in
  msg ++ [0x80] ++ replicate ((119 - n mod 64) mod 64)%nat 0
      ++ be_bytes 8 (8 * N.of_nat n).

Fixpoint words (bytes : list N) : list N :=
  match bytes with
  | a :: b :: c :: d :: rest =>
      (N.shiftl a 24 + N.shiftl b 16 + N.shiftl c 8 + d) :: words rest
  | _ => []
  end.

Fixpoint blocks (fuel : nat) (ws : list N) : list (list N) :=
  match fuel, ws with
  | S fuel', _ :: _ => take 16 ws :: blocks fuel' (drop 16 ws)
  | _, _ => []
  end.

(** The message schedule: [n] more words after those of [w]. *)
Fixpoint schedule (n : nat) (w : list N) : list N :=
  match n with
  | O => w
  | S n' =>
      let t := length w in
      let at_ (k : nat) := nth (t - k)%nat w 0 in
      schedule n'
        (w ++ [add32 (add32 (sigma1 (at_ 2%nat)) (at_ 7%nat))
                     (add32 (sigma0 (at_ 15%nat)) (at_ 16%nat))])
  end.

Definition round (s : list N) (kw : N * N) : list N :=
  match s with
  | [a; b; c; d; e; f; g; h] =>
      let t1 := add32 (add32 (add32 h (Sigma1 e)) (add32 (Ch e f g) kw.1)) kw.2 in
      let t2 := add32 (Sigma0 a) (Maj a b c) in
      [add32 t1 t2; a; b; c; add32 d t1; e; f; g]
  | _ => s
  end.

Definition compress (h : list N) (block : list N) : list N :=
  zip_with add32 h (foldl round h (zip K (schedule 48 block))).

Definition digest (msg : list N) : list N :=
  let ws := words (pad msg) in
  foldl compress H0 (blocks (length ws) ws) ≫= be_bytes 4.

End SHA256.

(** ** A small platform for evaluating the methods

    The theorems below hold for every [Platform].  To run the methods on
    concrete inputs the following stand-ins are used: a "PDF" is a sequence
    of pages separated by the byte ['|']; the page ["!"] is a page whose
    extraction raises, an empty page has no text, and any other page has
    its own bytes as text.  A first byte ['X'] does not parse and a first
    byte ['L'] parses but fails when the pages are loaded.  The digest is
    SHA-256 and the serialiser writes the full text. *)

Fixpoint demo_segments (data : list byte) : list (list byte) :=
  match data with
  | [] => [[]]
  | b :: rest =>
      if Byte.eqb b "|" then [] :: demo_segments rest
      else
        match demo_segments rest with
        | seg :: segs => (b :: seg) :: segs
        | [] => [[b]]
        end
  end.

Definition demo_page (seg : list byte) : Page :=
  match seg with
  | ["!"%byte] => Raise PageError
  | _ => Ok (Byte.to_N <$> seg)
  end.

Definition demo_parse (data : list byte) : Result Reader :=
  match data with
  | "X"%byte :: _ => Raise PdfReadError
  | "L"%byte :: _ => Ok (mkReader (Raise PdfReadError))
  | _ => Ok (mkReader (Ok (demo_page <$> demo_segments data)))
  end.

Definition demo_bytes (s : str) : list byte :=
  (λ c, default "?"%byte (Byte.of_N c)) <$> s.

Definition demo_isoformat (z : Z) : str :=
  lit (NilZero.string_of_int (Z.to_int z)).

#[export] Instance demo_platform : Platform := {|
  sha256 := λ data, demo_bytes (SHA256.digest (Byte.to_N <$> data));
  pdf_parse := demo_parse;
  json_dump := λ d, demo_bytes (full_text (content d));
  isoformat := demo_isoformat;
  abspath := λ cwd p, if startswith p [SLASH] then p else path_join cwd p
|}.

Definition demo_file (s : string) : File :=
  mkFile (demo_bytes (lit s)) 1700000000 true None.

Definition demo_world (path : string) (pdf : string) : World :=
  mkWorld {[ lit path := demo_file pdf ]} {[ lit "/in" ]} ∅ (lit "/") 1800000000.

Definition demo_self (path : string) (numbers : bool) : Self :=
  mkSelf (lit path) [] numbers 0 0 0 false None None.

Definition demo_state (path pdf : string) (numbers : bool) : State :=
  mkState (demo_self path numbers) (demo_world path pdf).


(** ** Notions used to state the properties *)

(** The entry the extraction loop appends for page index [page_num], if
    any: the page must exist, its extraction must not raise and its text
    must be non-empty. *)
Definition page_entry (pgs : list Page) (page_num : nat) : option PageData :=
  match pgs !! page_num with
  | Some (Ok t) =>
      if truthy t then Some (mkPageData (page_num + 1) t (len t)) else None
  | _ => None
  end.

(** The entries for a list of page indices, in order. *)
Definition entries (pgs : list Page) (idx : list nat) : list PageData :=
  omap (page_entry pgs) idx.

(** The state after [n] calls of [increment_processed_items]. *)
Fixpoint bump (n : nat) (st : State) : State :=
  match n with
  | 0 => st
  | S n' =>
      bump n' (mkState (set_processed_items (_processed_items (self st) + 1) (self st))
                       (world st))
  end.

(** The text the extractor assembles from the page entries. *)
Definition assemble_text (numbers : bool) (pages : list PageData) : str :=
  if numbers then join [NL] (formatted_parts pages)
  else join [NL; NL] (text <$> pages).

(** The separator line as the specification writes it. *)
Definition spec_separator_line (n : nat) : str :=
  lit "--- Page " ++ str_of_nat n ++ lit " ---".

(** The assembly of [full_text] in the specification's words: for every
    page the separator line followed by the page's text, all joined with
    newlines; without page numbers the texts joined with a blank line. *)
Definition spec_full_text (numbers : bool) (pages : list PageData) : str :=
  if numbers
  then join [NL] (pd ← pages; [spec_separator_line (page_number pd); text pd])
  else join [NL; NL] (text <$> pages).

(** [s] ends with [suf] up to the case of ASCII letters. *)
Definition ends_with_ci (s suf : str) : Prop :=
  ∃ stem ext, s = stem ++ ext ∧ lower ext = lower suf.

(** A file that can be opened and read to its end. *)
Definition healthy (f : File) : bool :=
  f_readable f &&
  match f_bad_offset f with
  | Some k => bool_decide (length (f_data f) ≤ k)
  | None => true
  end.

(** Saving to [out] succeeds: [out] is not a directory (nor its own
    directory, as the root is) and may be written, and its directory is the
    current one, exists as a directory, or does not exist and may be
    created. *)
Definition can_save (w : World) (out : str) : bool :=
  negb (bool_decide (out ∈ dirs w)) &&
  negb (bool_decide (out = dirname out)) &&
  negb (bool_decide (out ∈ denied w)) &&
  (negb (truthy (dirname out))
   || bool_decide (dirname out ∈ dirs w)
   || (negb (isfile w (dirname out)) && negb (bool_decide (dirname out ∈ denied w)))).


(** The marker of the first page. *)
Definition PAGE_1_MARKER : str := lit "--- Page 1 ---".

(** What [PdfReader] followed by [reader.pages] yields for the file at [p]. *)
Definition load_pages `{Platform} (w : World) (p : str) : Result (list Page) :=
  reader ← PdfReader w p; reader_pages reader.

(** The configuration passes [validate_config]. *)
Definition config_ok (st : State) : bool :=
  truthy (pdf_file_path (self st))
  && isfile (world st) (pdf_file_path (self st))
  && endswith (lower (pdf_file_path (self st))) (lit ".pdf").

(** The output path [validate_config] derives from the PDF path [p]. *)
Definition default_output (p : str) : str :=
  path_join (str_or (dirname p) (lit "."))
    ((splitext (basename p)).1 ++ lit ".json").

(** The state a successful [validate_config] leaves. *)
Definition validated (st : State) : State :=
  if truthy (output_file_path (self st)) then st
  else mkState (set_output_file_path (default_output (pdf_file_path (self st))) (self st))
               (world st).

(** The state after one reading of the clock. *)
Definition tick (st : State) : State :=
  let w := world st in
  mkState (self st) (mkWorld (files w) (dirs w) (denied w) (cwd w) (clock w + 1)).

(** The entries of a whole document. *)
Definition all_entries (pgs : list Page) : list PageData :=
  entries pgs (seq 0 (length pgs)).

(** The document assembled for the file [f] at path [p] whose pages are
    [pgs], at time [now]. *)
Definition document_of `{Platform} (w : World) (p : str) (f : File)
    (numbers : bool) (pgs : list Page) (now : Z) : Document :=
  let full := assemble_text numbers (all_entries pgs) in
  mkDocument
    (mkMetadata (splitext (basename p)).1 (lit "from_pdf") (isoformat now)
       (basename p) (abspath (cwd w) p) (length (f_data f))
       (if healthy f then hexdigest (f_data f) else [])
       (isoformat (f_mtime f)) (length pgs) (len full)
       (length (all_entries pgs)) (isoformat now))
    (mkContent full (all_entries pgs)).

(** A page whose extraction returns a non-empty text. *)
Definition yields_text (pg : Page) : bool :=
  match pg with
  | Ok (_ :: _) => true
  | _ => false
  end.

(** ** Concrete runs *)

(** A two-page document, both pages with text. *)
Definition demo_two_pages : State := demo_state "/in/a.pdf" "ab|cd" true.

(** A three-page document whose middle page raises. *)
Definition demo_middle_raises : State := demo_state "/in/a.pdf" "ab|!|cd" true.

(** A one-page document, with and without page numbers. *)
Definition demo_one_page (numbers : bool) : State :=
  demo_state "/in/a.pdf" "a" numbers.

(** A document whose first page raises and whose second page has text. *)
Definition demo_first_raises : State := demo_state "/in/a.pdf" "!|a" true.

(** A document whose only page has the text of a page marker. *)
Definition demo_marker_text : State :=
  demo_state "/in/a.pdf" "--- Page 1 ---" false.

(** A document of two pages, neither with text. *)
Definition demo_no_text : State := demo_state "/in/a.pdf" "|!" true.

(** A path that names no file, a file without the suffix, an empty file. *)
Definition demo_missing : State :=
  mkState (demo_self "/in/b.pdf" true) (demo_world "/in/a.pdf" "ab").
Definition demo_not_pdf : State := demo_state "/in/a.txt" "ab" true.
Definition demo_empty_file : State := demo_state "/in/a.pdf" "" true.

(** The same bytes at another path, at another time. *)
Definition demo_two_pages_later : State :=
  mkState (demo_self "/in/copy.pdf" true)
    (mkWorld {[ lit "/in/copy.pdf" := mkFile (demo_bytes (lit "ab|cd")) 1700000555 true None ]}
       {[ lit "/in" ]} ∅ (lit "/") 1900000000).

(** An unreadable file. *)
Definition demo_unreadable : State :=
  mkState (demo_self "/in/a.pdf" true)
    (mkWorld {[ lit "/in/a.pdf" := mkFile (demo_bytes (lit "ab")) 1700000000 false None ]}
       {[ lit "/in" ]} ∅ (lit "/") 1800000000).

(** ** Notions used for the further properties *)

(** [if output_dir and not os.path.exists(output_dir): os.makedirs(...)]. *)
Definition prepare_dir (w : World) (output_dir : str) : Result World :=
  if truthy output_dir && negb (path_exists w output_dir)
  then makedirs w output_dir
  else Ok w.

(** The two callback calls that end a successful [fetch]. *)
Definition run_callbacks (s : Self) : Result unit :=
  _ ← match progress_callback s with
      | Some callback => callback (_total_items s) (_processed_items s)
      | None => Ok ()
      end;
  match status_callback s with
  | Some callback => callback (status_message (output_file_path s))
  | None => Ok ()
  end.

Definition with_self (f : Self → Self) (st : State) : State :=
  mkState (f (self st)) (world st).

Definition with_world (w : World) (st : State) : State :=
  mkState (self st) w.

(** The result and the final state of [fetch], path by path: an invalid
    configuration; a file that cannot be opened, parsed or paged; an output
    that cannot be saved; callbacks that raise; success. *)
Definition fetch_outcome `{Platform} (st : State) : Result (list Document) * State :=
  if config_ok st then
    let s0 := validated st in
    let p := pdf_file_path (self st) in
    match load_pages (world st) p, files (world st) !! p with
    | Ok pgs, Some f =>
        let s1 := tick (bump (length (all_entries pgs))
                          (tick (with_self (set_total_items (length pgs)) s0))) in
        let d := document_of (world st) p f (include_page_numbers (self st)) pgs
                   (clock (world st) + 1) in
        let out := output_file_path (self s0) in
        match prepare_dir (world s1) (dirname out) with
        | Raise _ => (Ok [], s1)
        | Ok w1 =>
            match write_file w1 out (json_dump d) with
            | Raise _ => (Ok [], with_world w1 s1)
            | Ok w2 =>
                let s2 :=
                  with_self (set_fetch_completed true)
                    (with_self (set_total_processing_time (clock w2 - clock (world st)))
                       (tick (with_world w2 s1))) in
                match run_callbacks (self s2) with
                | Ok _ => (Ok [d], s2)
                | Raise _ => (Ok [], s2)
                end
            end
        end
    | _, _ => (Ok [], s0)
    end
  else (Ok [], st).


(** ** More concrete runs *)

(** A file that does not parse, and one that parses but whose pages cannot
    be loaded. *)
Definition demo_unparseable : State := demo_state "/in/a.pdf" "X" true.
Definition demo_unpageable : State := demo_state "/in/a.pdf" "L" true.

(** Two pages, converted without page numbers. *)
Definition demo_plain : State := demo_state "/in/a.pdf" "ab|cd" false.


(** Two pages, with an output path that may not be written. *)
Definition demo_output_denied : State :=
  mkState (demo_self "/in/a.pdf" true)
    (mkWorld {[ lit "/in/a.pdf" := demo_file "ab|cd" ]} {[ lit "/in" ]}
       {[ lit "/in/a.json" ]} (lit "/") 1800000000).
(** * Properties *)

(** ** Sanity checks of the path and string functions *)

Example basename_ex : basename (lit "/tmp/in/report.v2.PDF") = lit "report.v2.PDF".
Proof. reflexivity. Qed.
Example dirname_ex : dirname (lit "/tmp/in/report.v2.PDF") = lit "/tmp/in".
Proof. reflexivity. Qed.
Example dirname_root_ex : dirname (lit "//x.pdf") = lit "//".
Proof. reflexivity. Qed.
Example splitext_ex : splitext (lit "report.v2.PDF") = (lit "report.v2", lit ".PDF").
Proof. reflexivity. Qed.
Example splitext_hidden_ex : splitext (lit ".pdf") = (lit ".pdf", lit "").
Proof. reflexivity. Qed.
Example join_ex : path_join (lit ".") (lit "a.json") = lit "./a.json".
Proof. reflexivity. Qed.
Example str_of_nat_ex : str_of_nat 12 = lit "12".
Proof. reflexivity. Qed.
Example endswith_ex : endswith (lower (lit "A.PdF")) (lit ".pdf") = true.
Proof. reflexivity. Qed.

(** The first and the last round constant, and the digests of [""],
    ["abc"] and of a message longer than one block. *)
Example sha256_constants :
  head SHA256.K = Some 0x428a2f98%N ∧ last SHA256.K = Some 0xc67178f2%N ∧
  length SHA256.K = 64 ∧ head SHA256.H0 = Some 0x6a09e667%N.
Proof. by vm_compute. Qed.
Example sha256_empty :
  hexdigest [] = lit "e3b0c44298fc1c149afbf4c8996fb92427ae41e4649b934ca495991b7852b855".
Proof. vm_compute; reflexivity. Qed.
Example sha256_abc :
  hexdigest (demo_bytes (lit "abc"))
  = lit "ba7816bf8f01cfea414140de5dae2223b00361a396177a9cb410ff61f20015ad".
Proof. vm_compute; reflexivity. Qed.
Example sha256_two_blocks :
  hexdigest (replicate 70 "a"%byte)
  = lit "6bd5e5034855a11241f0dee8fc72850ffd9955b28347a86428b5fa19119f6ad0".
Proof. vm_compute; reflexivity. Qed.

(** ** Strings *)

Lemma startswith_spec (s pre : str) :
  startswith s pre = true ↔ ∃ r, s = pre ++ r.
Proof.
  revert s. induction pre as [|a pre IH]; intros s; simpl.
  - split; [by exists s | done].
  - destruct s as [|b s].
    + split; [done | by intros [r ?]].
    + rewrite andb_true_iff, bool_decide_eq_true, IH. split.
      * intros [-> [r ->]]. eauto.
      * intros [r Hr]. simpl in Hr. injection Hr as -> ->. eauto.
Qed.

Lemma endswith_spec (s suf : str) :
  endswith s suf = true ↔ ∃ r, s = r ++ suf.
Proof.
  unfold endswith. rewrite startswith_spec. split.
  - intros [r Hr]. exists (reverse r).
    apply (inj reverse). by rewrite reverse_app, reverse_involutive.
  - intros [r ->]. exists (reverse r). by rewrite reverse_app.
Qed.

Lemma contains_spec (hay needle : str) :
  contains hay needle = true ↔ ∃ a b, hay = a ++ needle ++ b.
Proof.
  induction hay as [|c hay IH]; simpl.
  - rewrite orb_false_r, startswith_spec. split.
    + intros [r Hr]. by exists [], r.
    + intros (a & b & Hab). destruct a; [by exists b|done].
  - rewrite orb_true_iff, startswith_spec, IH. split.
    + intros [[r Hr]|(a & b & ->)]; [by exists [], r | by exists (c :: a), b].
    + intros (a & b & Hab). destruct a as [|x a]; simpl in Hab.
      * left. eauto.
      * right. simplify_eq. eauto.
Qed.

Lemma contains_app_l (a b needle : str) :
  contains a needle = true → contains (a ++ b) needle = true.
Proof.
  rewrite !contains_spec. intros (x & y & ->).
  exists x, (y ++ b). by rewrite <-!(assoc_L (++)).
Qed.

Lemma contains_app_r (a b needle : str) :
  contains b needle = true → contains (a ++ b) needle = true.
Proof.
  rewrite !contains_spec. intros (x & y & ->).
  exists (a ++ x), y. by rewrite <-!(assoc_L (++)).
Qed.

Lemma contains_refl (s : str) : contains s s = true.
Proof. apply contains_spec. exists [], []. by rewrite app_nil_r. Qed.

Lemma contains_trans (a b c : str) :
  contains a b = true → contains b c = true → contains a c = true.
Proof.
  rewrite !contains_spec. intros (x & y & ->) (u & v & ->).
  exists (x ++ u), (v ++ y). by rewrite <-!(assoc_L (++)).
Qed.

(** Every part of a join occurs in it. *)
Lemma join_contains (sep : str) (parts : list str) (p : str) :
  p ∈ parts → contains (join sep parts) p = true.
Proof.
  induction parts as [|q parts IH]; [by intros ?%elem_of_nil|].
  intros [->|Hin]%elem_of_cons.
  - destruct parts; simpl join; [apply contains_refl|].
    apply contains_app_l, contains_refl.
  - destruct parts as [|q' parts]; [by apply elem_of_nil in Hin|].
    change (join sep (q :: q' :: parts)) with (q ++ sep ++ join sep (q' :: parts)).
    by apply contains_app_r, contains_app_r, IH.
Qed.

(** A needle that avoids the character [c] cannot straddle an occurrence
    of [c]: it lies on one side of it. *)
Lemma contains_split (c : char) (a b needle : str) :
  c ∉ needle →
  contains (a ++ c :: b) needle = true →
  contains a needle = true ∨ contains b needle = true.
Proof.
  intros Hc. rewrite !contains_spec. intros (x & y & Hxy).
  destruct (decide (length (x ++ needle) ≤ length a)) as [Hle|Hgt].
  - left. exists x, (drop (length (x ++ needle)) a).
    rewrite (assoc_L (++)) in Hxy. rewrite (assoc_L (++)).
    apply (f_equal (take (length a))) in Hxy.
    rewrite take_app_length in Hxy.
    rewrite <-(take_drop (length (x ++ needle)) a) at 1.
    f_equal. rewrite Hxy, take_take, Nat.min_l by done.
    apply take_app_length.
  - destruct (decide (length a < length x)) as [Hlt|Hge].
    + right. exists (drop (S (length a)) x), y.
      apply (f_equal (drop (S (length a)))) in Hxy.
      rewrite (drop_app_le x) in Hxy by lia.
      rewrite <-Hxy. change (a ++ c :: b) with (a ++ [c] ++ b).
      rewrite (assoc_L (++)), drop_app_length'; [done|].
      rewrite length_app. simpl. lia.
    + exfalso. apply Hc.
      assert (Hlook : (a ++ c :: b) !! length a = Some c)
        by (by rewrite list_lookup_middle).
      rewrite Hxy, lookup_app_r in Hlook by lia.
      rewrite length_app in Hgt.
      rewrite lookup_app_l in Hlook by lia.
      by eapply list_elem_of_lookup_2.
Qed.

Lemma contains_join_inv (c : char) (sep : str) (parts : list str) (needle : str) :
  needle ≠ [] → c ∉ needle → c ∈ sep → Forall (λ x, x = c) sep →
  contains (join sep parts) needle = true →
  ∃ p, p ∈ parts ∧ contains p needle = true.
Proof.
  intros Hne Hc Hsep Hall. induction parts as [|q parts IH]; intros Hin.
  - apply contains_spec in Hin as (a & b & Hab).
    destruct a, needle; done.
  - destruct parts as [|q' parts].
    + exists q. split; [apply list_elem_of_here | done].
    + change (join sep (q :: q' :: parts))
        with (q ++ sep ++ join sep (q' :: parts)) in Hin.
      assert (Hgen : ∀ sp rest, Forall (λ x, x = c) sp →
                contains (sp ++ rest) needle = true → contains rest needle = true).
      { clear -Hc Hne. induction sp as [|x sp IHsp]; intros rest Hf Hcon; [done|].
        apply Forall_cons in Hf as [-> Hf].
        apply (contains_split c [] (sp ++ rest)) in Hcon as [Hnil|Hcon]; [|by eauto|done].
        apply contains_spec in Hnil as (a & b & Hab). destruct a, needle; done. }
      destruct sep as [|x sep]; [by apply elem_of_nil in Hsep|].
      apply Forall_cons in Hall as [-> Hall].
      simpl in Hin. apply contains_split in Hin as [Hq|Hrest]; [| |done].
      * exists q. split; [apply list_elem_of_here | done].
      * apply Hgen in Hrest; [|done].
        destruct (IH Hrest) as (p & Hp & Hcon).
        exists p. split; [by apply list_elem_of_further | done].
Qed.

Lemma lower_length (s : str) : length (lower s) = length s.
Proof. apply length_fmap. Qed.

Lemma lower_app (a b : str) : lower (a ++ b) = lower a ++ lower b.
Proof. apply fmap_app. Qed.

(** ** The monad *)

Lemma bind_run {A B} (m : M A) (k : A → M B) (st : State) :
  (m ≫= k) st =
  match m st with
  | (Ok a, st') => k a st'
  | (Raise e, st') => (Raise e, st')
  end.
Proof. reflexivity. Qed.

Lemma ret_run {A} (a : A) (st : State) : (mret a : M A) st = (Ok a, st).
Proof. reflexivity. Qed.

Lemma lift_run {A} (r : Result A) (st : State) : lift r st = (r, st).
Proof. reflexivity. Qed.

Lemma try_except_run {A} (body : M A) (handler : exn → M A) (st : State) :
  try_except body handler st =
  match body st with
  | (Ok a, st') => (Ok a, st')
  | (Raise e, st') => handler e st'
  end.
Proof. reflexivity. Qed.

Lemma bind_Ok_inv {A B} (m : M A) (k : A → M B) (st st' : State) (b : B) :
  (m ≫= k) st = (Ok b, st') →
  ∃ a st1, m st = (Ok a, st1) ∧ k a st1 = (Ok b, st').
Proof.
  rewrite bind_run. destruct (m st) as [[a|e] st1]; [eauto | done].
Qed.

(** A handler that returns the empty list turns every exception of the
    body into an empty result. *)
Lemma try_except_nil_inv {A} (body : M (list A)) (st st' : State)
    (r : Result (list A)) :
  try_except body (λ _, mret []) st = (r, st') →
  ∃ l, r = Ok l ∧ (l = [] ∨ body st = (Ok l, st')).
Proof.
  rewrite try_except_run. destruct (body st) as [[l|e] st1].
  - intros [= <- <-]. eauto.
  - intros [= <- <-]. eauto.
Qed.

Lemma world_validated (st : State) : world (validated st) = world st.
Proof. unfold validated. by destruct (truthy _). Qed.

Lemma pdf_file_path_validated (st : State) :
  pdf_file_path (self (validated st)) = pdf_file_path (self st).
Proof. unfold validated. by destruct (truthy _). Qed.

Lemma include_page_numbers_validated (st : State) :
  include_page_numbers (self (validated st)) = include_page_numbers (self st).
Proof. unfold validated. by destruct (truthy _). Qed.



Lemma world_bump (n : nat) (st : State) : world (bump n st) = world st.
Proof. revert st. induction n as [|n IH]; intros st; simpl; [done|]. by rewrite IH. Qed.

Lemma include_page_numbers_bump (n : nat) (st : State) :
  include_page_numbers (self (bump n st)) = include_page_numbers (self st).
Proof. revert st. induction n as [|n IH]; intros st; simpl; [done|]. by rewrite IH. Qed.

Lemma pdf_file_path_bump (n : nat) (st : State) :
  pdf_file_path (self (bump n st)) = pdf_file_path (self st).
Proof. revert st. induction n as [|n IH]; intros st; simpl; [done|]. by rewrite IH. Qed.

Lemma output_file_path_bump (n : nat) (st : State) :
  output_file_path (self (bump n st)) = output_file_path (self st).
Proof. revert st. induction n as [|n IH]; intros st; simpl; [done|]. by rewrite IH. Qed.



(** ** The extraction loop *)

Section Extraction.
Context `{Platform}.

(** One turn of the loop appends the entry of its page, if there is one,
    and counts it. *)
Lemma extract_page_run (pgs : list Page) (acc : list PageData * list str)
    (page_num : nat) (st : State) :
  extract_page pgs acc page_num st =
  match page_entry pgs page_num with
  | Some pd => (Ok (acc.1 ++ [pd], acc.2 ++ [text pd]), bump 1 st)
  | None => (Ok acc, st)
  end.
Proof.
  unfold extract_page, page_entry.
  rewrite try_except_run, bind_run, lift_run.
  destruct (pgs !! page_num) as [[t|e]|]; [|done..].
  rewrite bind_run, lift_run. by destruct (truthy t).
Qed.

Lemma for_each_extract_page (pgs : list Page) (idx : list nat)
    (acc : list PageData * list str) (st : State) :
  for_each (extract_page pgs) idx acc st =
  (Ok (acc.1 ++ entries pgs idx, acc.2 ++ (text <$> entries pgs idx)),
   bump (length (entries pgs idx)) st).
Proof.
  revert acc st. induction idx as [|i idx IH]; intros acc st.
  - simpl. rewrite !app_nil_r. by destruct acc.
  - simpl for_each. rewrite bind_run, extract_page_run.
    unfold entries. simpl omap. fold (entries pgs idx).
    destruct (page_entry pgs i) as [pd|]; simpl.
    + rewrite IH. simpl. by rewrite <-!(assoc_L (++)).
    + by rewrite IH.
Qed.

End Extraction.

(** ** Reading and hashing a file *)

Lemma take_drop_length {A} (n : nat) (l : list A) :
  take n l ++ drop (length (take n l)) l = l.
Proof.
  rewrite length_take. destruct (decide (n ≤ length l)).
  - rewrite Nat.min_l by done. apply take_drop.
  - rewrite Nat.min_r, take_ge, drop_all by lia. apply app_nil_r.
Qed.

Lemma file_read_Ok (f : File) (pos n : nat) (block : list byte) :
  file_read f pos n = Ok block →
  block = take n (drop pos (f_data f)) ∧
  ∀ k, f_bad_offset f = Some k → ¬ (pos ≤ k < pos + length block).
Proof.
  unfold file_read. destruct (f_bad_offset f) as [k|].
  - case_bool_decide as Hk; [done|]. intros [= <-]. split; [done|].
    by intros k' [= <-].
  - intros [= <-]. done.
Qed.

Lemma file_read_Raise (f : File) (pos n : nat) (e : exn) :
  file_read f pos n = Raise e →
  e = OSError ∧
  ∃ k, f_bad_offset f = Some k ∧
       pos ≤ k < pos + length (take n (drop pos (f_data f))).
Proof.
  unfold file_read. destruct (f_bad_offset f) as [k|]; [|done].
  case_bool_decide as Hk; [|done]. intros [= <-]. eauto.
Qed.

Section Hashing.
Context `{Platform}.

(** The loop feeds the hash object the rest of the file, block by block,
    unless a block covers the bad offset. *)
Lemma read_blocks_spec (f : File) (pos : nat) (fed : list byte) :
  read_blocks f pos fed =
  match f_bad_offset f with
  | Some k =>
      if bool_decide (pos ≤ k < length (f_data f)) then Raise OSError
      else Ok (fed ++ drop pos (f_data f))
  | None => Ok (fed ++ drop pos (f_data f))
  end.
Proof.
  funelim (read_blocks f pos fed).
  - (* end of file *)
    match goal with
    | Hr : file_read _ _ _ = Ok [] |- _ =>
        destruct (file_read_Ok _ _ _ _ Hr) as [Hnil _]
    end.
    assert (Hdrop : drop pos (f_data f) = []).
    { destruct (drop pos (f_data f)); [done|]. by unfold BLOCK_SIZE in Hnil. }
    rewrite Hdrop, app_nil_r.
    destruct (f_bad_offset f) as [k|]; [|done].
    apply (f_equal length) in Hdrop. rewrite length_drop in Hdrop. simpl in Hdrop.
    case_bool_decide; [lia | done].
  - (* one more block *)
    match goal with IH : read_blocks _ _ _ = match _ with _ => _ end |- _ => rewrite IH end.
    destruct (file_read_Ok _ _ _ _ Hread) as [Hblock Hbad].
    assert (Hlen : length (b :: block) ≤ length (f_data f) - pos).
    { rewrite Hblock, length_take, length_drop. lia. }
    assert (Hrest : (fed ++ b :: block) ++ drop (pos + length (b :: block)) (f_data f)
                    = fed ++ drop pos (f_data f)).
    { rewrite <-(assoc_L (++)). f_equal.
      rewrite <-drop_drop, Hblock. apply take_drop_length. }
    rewrite Hrest.
    destruct (f_bad_offset f) as [k|]; [|done].
    specialize (Hbad k eq_refl).
    repeat case_bool_decide; try done; lia.
  - (* a read raises *)
    match goal with
    | Hr : file_read _ _ _ = Raise _ |- _ =>
        destruct (file_read_Raise _ _ _ _ Hr) as [-> (k & Hk & Hrange)]
    end.
    rewrite Hk. rewrite length_take, length_drop in Hrange.
    case_bool_decide; [done | lia].
Qed.

(** The value [compute_file_hash] returns for the file at [p]. *)
Lemma compute_file_hash_run (p : str) (st : State) :
  compute_file_hash p st =
  (Ok match files (world st) !! p with
      | Some f => if healthy f then hexdigest (f_data f) else []
      | None => []
      end, st).
Proof.
  unfold compute_file_hash.
  rewrite try_except_run, bind_run. simpl.
  rewrite bind_run, lift_run. unfold open_rb, healthy.
  destruct (files (world st) !! p) as [f|]; [|by case_bool_decide].
  destruct (f_readable f); [|done]. simpl.
  rewrite bind_run, lift_run, read_blocks_spec.
  destruct (f_bad_offset f) as [k|]; [|done].
  repeat case_bool_decide; try done; lia.
Qed.

Lemma hex_digit_lower (d : N) :
  (d < 16)%N → hex_digit d ∈ lit "0123456789abcdef".
Proof.
  intros Hd. unfold hex_digit.
  assert (Hcases : d ∈ (N.of_nat <$> seq 0 16)).
  { apply list_elem_of_fmap. exists (N.to_nat d). split; [lia|].
    apply elem_of_seq. lia. }
  revert Hcases. cbv [fmap list_fmap seq]. rewrite !elem_of_cons.
  intros Hor. repeat (destruct Hor as [->|Hor]; [vm_compute; set_solver|]).
  by apply elem_of_nil in Hor.
Qed.

(** A digest is written with lowercase hexadecimal digits, two per byte. *)
Lemma hexdigest_lowercase_hex (fed : list byte) :
  Forall (λ c, c ∈ lit "0123456789abcdef") (hexdigest fed) ∧
  length (hexdigest fed) = 2 * length (sha256 fed).
Proof.
  unfold hexdigest. induction (sha256 fed) as [|b l [IH1 IH2]]; [done|].
  change (mbind (M := list) hex_byte (b :: l)) with (hex_byte b ++ mbind (M := list) hex_byte l).
  split.
  - apply Forall_app. split; [|done].
    unfold hex_byte. apply Forall_cons. split; [|apply Forall_singleton].
    + apply hex_digit_lower. pose proof (Byte.to_N_bounded b).
      apply N.Div0.div_lt_upper_bound. lia.
    + apply hex_digit_lower. by apply N.mod_lt.
  - rewrite length_app, IH2. simpl. lia.
Qed.

End Hashing.

(** ** The page entries *)

Lemma page_entry_Some (pgs : list Page) (i : nat) (pd : PageData) :
  page_entry pgs i = Some pd ↔
  ∃ t, pgs !! i = Some (Ok t) ∧ t ≠ [] ∧ pd = mkPageData (i + 1) t (len t).
Proof.
  unfold page_entry. destruct (pgs !! i) as [[t|e]|].
  - destruct t as [|c t]; simpl.
    + split; [done|]. by intros (t' & [= <-] & ? & _).
    + split.
      * intros [= <-]. by exists (c :: t).
      * by intros (t' & [= <-] & _ & ->).
  - split; [done|]. by intros (t' & ? & _).
  - split; [done|]. by intros (t' & ? & _).
Qed.

Lemma entries_cons (pgs : list Page) (i : nat) (idx : list nat) :
  entries pgs (i :: idx) =
  match page_entry pgs i with
  | Some pd => pd :: entries pgs idx
  | None => entries pgs idx
  end.
Proof. reflexivity. Qed.

Lemma elem_of_entries (pgs : list Page) (idx : list nat) (pd : PageData) :
  pd ∈ entries pgs idx ↔
  ∃ i t, i ∈ idx ∧ pgs !! i = Some (Ok t) ∧ t ≠ []
         ∧ pd = mkPageData (i + 1) t (len t).
Proof.
  unfold entries. rewrite list_elem_of_omap. split.
  - intros (i & Hi & (t & ? & ? & ?)%page_entry_Some). by exists i, t.
  - intros (i & t & Hi & ? & ? & ?). exists i. split; [done|].
    apply page_entry_Some. by exists t.
Qed.

(** Every entry records the length of its own text. *)
Lemma entries_character_count (pgs : list Page) (idx : list nat) :
  Forall (λ pd, character_count pd = len (text pd) ∧ text pd ≠ [])
    (entries pgs idx).
Proof.
  apply Forall_forall. intros pd (i & t & _ & _ & Hne & ->)%elem_of_entries. done.
Qed.

Lemma entries_length_le (pgs : list Page) (idx : list nat) :
  length (entries pgs idx) ≤ length idx.
Proof.
  induction idx as [|i idx IH]; [done|].
  rewrite entries_cons. destruct (page_entry pgs i); simpl; lia.
Qed.


(** When every listed page yields text, there is one entry per page. *)
Lemma entries_all_text (pgs : list Page) (idx : list nat) :
  (∀ i, i ∈ idx → ∃ t, pgs !! i = Some (Ok t) ∧ t ≠ []) →
  page_number <$> entries pgs idx = (λ i, i + 1) <$> idx.
Proof.
  induction idx as [|i idx IH]; intros Hall; [done|].
  rewrite entries_cons.
  destruct (Hall i) as (t & Ht & Hne); [apply list_elem_of_here|].
  assert (Hentry : page_entry pgs i = Some (mkPageData (i + 1) t (len t))).
  { apply page_entry_Some. by exists t. }
  rewrite Hentry. simpl. f_equal. apply IH. intros j Hj. apply Hall.
  by apply list_elem_of_further.
Qed.

(** The page numbers of consecutive indices grow strictly, and stay
    within the range of the indices. *)
Lemma entries_seq_sorted (pgs : list Page) (k n : nat) :
  StronglySorted lt (page_number <$> entries pgs (seq k n)) ∧
  Forall (λ m, k < m ≤ k + n) (page_number <$> entries pgs (seq k n)).
Proof.
  revert k. induction n as [|n IH]; intros k.
  - split; constructor.
  - simpl seq. rewrite entries_cons. destruct (IH (S k)) as [IHs IHb].
    assert (Hb : Forall (λ m, k + 1 < m ≤ k + S n)
                   (page_number <$> entries pgs (seq (S k) n))).
    { eapply Forall_impl; [exact IHb|]. simpl. lia. }
    destruct (page_entry pgs k) as [pd|] eqn:Hpd.
    + apply page_entry_Some in Hpd as (t & _ & _ & ->). simpl. split.
      * apply StronglySorted_cons. split; [|done].
        eapply Forall_impl; [exact Hb|]. simpl. lia.
      * apply Forall_cons. split; [lia|].
        eapply Forall_impl; [exact Hb|]. simpl. lia.
    + split; [done|]. eapply Forall_impl; [exact Hb|]. simpl. lia.
Qed.

Lemma all_entries_seq (pgs : list Page) :
  (∀ pg, pg ∈ pgs → ∃ t, pg = Ok t ∧ t ≠ []) →
  page_number <$> all_entries pgs = seq 1 (length pgs).
Proof.
  intros Hall. unfold all_entries. rewrite entries_all_text.
  - rewrite <-(fmap_S_seq 0). apply list_fmap_ext. intros _ i _. lia.
  - intros i Hi%elem_of_seq.
    destruct (lookup_lt_is_Some_2 pgs i) as [pg Hpg]; [lia|].
    destruct (Hall pg) as (t & -> & Hne); [by eapply list_elem_of_lookup_2|].
    by exists t.
Qed.

(** ** The assembled text *)

Lemma formatted_parts_cons (pd : PageData) (pages : list PageData) :
  formatted_parts (pd :: pages) =
  page_separator (page_number pd) :: text pd :: formatted_parts pages.
Proof. reflexivity. Qed.

Lemma elem_of_formatted_parts (pages : list PageData) (part : str) :
  part ∈ formatted_parts pages ↔
  ∃ pd, pd ∈ pages ∧ (part = page_separator (page_number pd) ∨ part = text pd).
Proof.
  induction pages as [|pd pages IH].
  - split; [by intros ?%elem_of_nil | by intros (? & ?%elem_of_nil & _)].
  - rewrite formatted_parts_cons, !elem_of_cons, IH. split.
    + intros [->|[->|(pd' & Hin & Hor)]].
      * exists pd. split; [by left | by left].
      * exists pd. split; [by left | by right].
      * exists pd'. split; [by right | done].
    + intros (pd' & [->|Hin]%elem_of_cons & Hor).
      * destruct Hor; [by left | right; by left].
      * right. right. by exists pd'.
Qed.

(** With page numbers, the text contains the separator line and the text
    of every entry. *)
Lemma assemble_text_numbers_contains (pages : list PageData) (pd : PageData) :
  pd ∈ pages →
  contains (assemble_text true pages) (spec_separator_line (page_number pd)) = true ∧
  contains (assemble_text true pages) (text pd) = true.
Proof.
  intros Hin. unfold assemble_text. split.
  - eapply contains_trans.
    + apply (join_contains _ _ (page_separator (page_number pd))).
      apply elem_of_formatted_parts. exists pd. by split; [|left].
    + apply contains_spec. exists [NL], [NL].
      unfold page_separator, spec_separator_line.
      by rewrite <-!(assoc_L (++)).
  - apply join_contains, elem_of_formatted_parts. exists pd. by split; [|right].
Qed.


(** ** Paths *)

Lemma rfind1_notin (c : N) (s : str) : c ∉ s → rfind1 c s = 0.
Proof.
  induction s as [|x s IH]; [done|].
  intros [Hx Hs]%not_elem_of_cons. simpl. rewrite IH by done.
  by rewrite bool_decide_eq_false_2.
Qed.

Lemma rfind1_last (c : N) (a b : str) :
  c ∉ b → rfind1 c (a ++ c :: b) = S (length a).
Proof.
  intros Hb. induction a as [|x a IH]; simpl.
  - by rewrite rfind1_notin, bool_decide_eq_true_2.
  - by rewrite IH.
Qed.

Lemma basename_last_component (d name : str) :
  SLASH ∉ name → basename (d ++ SLASH :: name) = name.
Proof.
  intros Hname. unfold basename. rewrite rfind1_last by done.
  change (SLASH :: name) with ([SLASH] ++ name). rewrite (assoc_L (++)).
  apply drop_app_length'. rewrite length_app. simpl. lia.
Qed.

Lemma dirname_last_component (d' name : str) (x : N) :
  x ≠ SLASH → SLASH ∉ name →
  dirname ((d' ++ [x]) ++ SLASH :: name) = d' ++ [x].
Proof.
  intros Hx Hname. unfold dirname. cbv zeta. rewrite rfind1_last by done.
  assert (Hhead : take (S (length (d' ++ [x]))) ((d' ++ [x]) ++ SLASH :: name)
                  = (d' ++ [x]) ++ [SLASH]).
  { change (SLASH :: name) with ([SLASH] ++ name).
    rewrite (assoc_L (++)). apply take_app_length'.
    rewrite !length_app. simpl. lia. }
  rewrite Hhead.
  assert (Htruthy : truthy ((d' ++ [x]) ++ [SLASH]) = true) by by destruct d'.
  assert (Hall : all_sep ((d' ++ [x]) ++ [SLASH]) = false).
  { unfold all_sep. rewrite !forallb_app. simpl.
    by rewrite (bool_decide_eq_false_2 (x = SLASH)), andb_false_r. }
  rewrite Htruthy, Hall. simpl. unfold rstrip.
  rewrite !reverse_app. simpl.
  rewrite (bool_decide_eq_false_2 (x = SLASH)) by done.
  change (x :: reverse d') with (reverse [x] ++ reverse d').
  by rewrite <-reverse_app, reverse_involutive.
Qed.

Lemma splitext_last_dot (stem ext : str) (c : N) :
  c ∈ stem → c ≠ DOT → SLASH ∉ stem → SLASH ∉ ext → DOT ∉ ext →
  splitext (stem ++ DOT :: ext) = (stem, DOT :: ext).
Proof.
  intros Hc Hdot Hstem Hext Hnodot. unfold splitext.
  rewrite (rfind1_notin SLASH).
  2:{ rewrite elem_of_app, elem_of_cons. intros [?|[?|?]]; done. }
  rewrite rfind1_last by done. rewrite bool_decide_eq_true_2 by lia.
  simpl. rewrite drop_0, take_app_length, drop_app_length.
  assert (Hnot : forallb (λ x, bool_decide (x = DOT)) stem = false).
  { apply not_true_is_false. intros Hall. rewrite forallb_forall in Hall.
    apply list_elem_of_In, Hall, bool_decide_eq_true in Hc. done. }
  by rewrite Hnot.
Qed.

(** For a file [stem.ext] in a directory [d/], the default output is
    [d/stem.json]. *)
Lemma default_output_shape (d' stem ext : str) (x c : N) :
  x ≠ SLASH → c ∈ stem → c ≠ DOT →
  SLASH ∉ stem → SLASH ∉ ext → DOT ∉ ext →
  default_output ((d' ++ [x]) ++ SLASH :: stem ++ DOT :: ext)
  = (d' ++ [x]) ++ SLASH :: stem ++ lit ".json".
Proof.
  intros Hx Hc Hdot Hstem Hext Hnodot. unfold default_output.
  assert (Hname : SLASH ∉ stem ++ DOT :: ext).
  { rewrite elem_of_app, elem_of_cons. intros [?|[?|?]]; done. }
  rewrite dirname_last_component, basename_last_component by done.
  rewrite (splitext_last_dot stem ext c) by done. simpl.
  unfold str_or. replace (truthy (d' ++ [x])) with true by by destruct d'.
  unfold path_join.
  replace (truthy (d' ++ [x])) with true by by destruct d'.
  assert (Hstart : startswith (stem ++ lit ".json") [SLASH] = false).
  { destruct stem as [|y stem]; [by apply elem_of_nil in Hc|].
    apply not_elem_of_cons in Hstem as [Hy _]. simpl.
    by rewrite bool_decide_eq_false_2. }
  assert (Hend : endswith (d' ++ [x]) [SLASH] = false).
  { unfold endswith. rewrite reverse_app. simpl.
    by rewrite bool_decide_eq_false_2. }
  by rewrite Hstart, Hend.
Qed.

(** ** The methods, one by one *)

Section Methods.
Context `{Platform}.

Lemma validate_config_run (st : State) :
  validate_config st =
  if config_ok st then (Ok true, validated st) else (Ok false, st).
Proof.
  unfold validate_config, config_ok, validated.
  rewrite bind_run. simpl. rewrite bind_run. simpl.
  destruct (truthy (pdf_file_path (self st))); [|done].
  destruct (isfile (world st) (pdf_file_path (self st))); [|done].
  destruct (endswith _ _); [|done]. simpl.
  rewrite bind_run.
  by destruct (truthy (output_file_path (self st))).
Qed.

Lemma file_read_whole (f : File) :
  file_read f 0 (length (f_data f)) =
  match f_bad_offset f with
  | Some k =>
      if bool_decide (k < length (f_data f)) then Raise OSError
      else Ok (f_data f)
  | None => Ok (f_data f)
  end.
Proof.
  unfold file_read. rewrite drop_0, firstn_all.
  destruct (f_bad_offset f) as [k|]; [|done].
  repeat case_bool_decide; try done; lia.
Qed.

Lemma PdfReader_Ok (w : World) (p : str) (rd : Reader) :
  PdfReader w p = Ok rd ↔
  ∃ f, files w !! p = Some f ∧ healthy f = true ∧ f_data f ≠ []
       ∧ pdf_parse (f_data f) = Ok rd.
Proof.
  unfold PdfReader, open_rb, healthy.
  destruct (files w !! p) as [f|]; simpl.
  2:{ split; [by case_bool_decide | by intros (? & ? & _)]. }
  split.
  - intros Hrd. exists f. destruct (f_readable f); [|done]. simpl in *.
    rewrite file_read_whole in Hrd.
    destruct (f_bad_offset f) as [k|]; simpl in *.
    + case_bool_decide as Hk; [done|]. simpl in Hrd.
      destruct (f_data f) eqn:Hd; [done|].
      split_and!; try done. apply bool_decide_eq_true. simpl in *. lia.
    + destruct (f_data f) eqn:Hd; done.
  - intros (f' & [= <-] & Hh & Hne & Hparse).
    apply andb_true_iff in Hh as [-> Hbad]. simpl.
    rewrite file_read_whole.
    destruct (f_bad_offset f) as [k|]; simpl.
    + apply bool_decide_eq_true in Hbad.
      case_bool_decide; [lia|]. simpl. by destruct (f_data f).
    + by destruct (f_data f).
Qed.

Lemma load_pages_Ok (w : World) (p : str) (pgs : list Page) :
  load_pages w p = Ok pgs ↔
  ∃ f rd, files w !! p = Some f ∧ healthy f = true ∧ f_data f ≠ []
          ∧ pdf_parse (f_data f) = Ok rd ∧ reader_pages rd = Ok pgs.
Proof.
  unfold load_pages. destruct (PdfReader w p) as [rd|e] eqn:Hrd; simpl.
  - apply PdfReader_Ok in Hrd as (f & Hf & Hh & Hne & Hparse). split.
    + intros Hp. by exists f, rd.
    + intros (f' & rd' & Hf' & _ & _ & Hparse' & Hp). congruence.
  - split; [done|]. intros (f & rd & Hf & Hh & Hne & Hparse & _).
    assert (PdfReader w p = Ok rd) by (apply PdfReader_Ok; eauto). congruence.
Qed.

(** Loading the pages depends on the files and directories only. *)
Lemma load_pages_ext (w1 w2 : World) (p : str) :
  files w1 = files w2 → dirs w1 = dirs w2 → load_pages w1 p = load_pages w2 p.
Proof.
  intros Hfiles Hdirs. unfold load_pages, PdfReader, open_rb.
  by rewrite Hfiles, Hdirs.
Qed.

Lemma is_valid_pdf_run (p : str) (st : State) :
  is_valid_pdf p st =
  (Ok match PdfReader (world st) p with Ok _ => true | Raise _ => false end, st).
Proof.
  unfold is_valid_pdf. rewrite bind_run. simpl.
  unfold isfile, getsize, stat.
  destruct (PdfReader (world st) p) as [rd|e] eqn:Hrd.
  - apply PdfReader_Ok in Hrd as Hrd'. destruct Hrd' as (f & Hf & Hh & Hne & Hparse).
    rewrite Hf. rewrite bool_decide_eq_true_2 by eauto. simpl.
    rewrite bind_run, lift_run. simpl.
    case_bool_decide as Hz; [by destruct (f_data f)|].
    by rewrite try_except_run, bind_run, lift_run.
  - destruct (files (world st) !! p) as [f|] eqn:Hf.
    + rewrite bool_decide_eq_true_2 by eauto. simpl.
      rewrite bind_run, lift_run. simpl.
      case_bool_decide; [done|].
      by rewrite try_except_run, bind_run, lift_run.
    + rewrite bool_decide_eq_false_2; [done|]. by intros [? ?].
Qed.

Lemma extract_text_from_pdf_run (p : str) (st : State) :
  extract_text_from_pdf p st =
  match load_pages (world st) p with
  | Ok pgs =>
      let full := assemble_text (include_page_numbers (self st)) (all_entries pgs) in
      (Ok (mkExtractedData (all_entries pgs) full (length pgs) (len full)),
       bump (length (all_entries pgs)) st)
  | Raise e => (Raise e, st)
  end.
Proof.
  unfold extract_text_from_pdf, load_pages.
  rewrite try_except_run, bind_run. simpl. rewrite bind_run, lift_run.
  destruct (PdfReader (world st) p) as [rd|e]; [|done]. simpl.
  rewrite bind_run, lift_run.
  destruct (reader_pages rd) as [pgs|e]; [|done].
  rewrite bind_run, for_each_extract_page. simpl.
  by rewrite include_page_numbers_bump.
Qed.

Lemma create_json_structure_run (p : str) (ed : ExtractedData) (st : State) :
  create_json_structure p ed st =
  match files (world st) !! p with
  | Some f =>
      let now := isoformat (clock (world st)) in
      (Ok (mkDocument
             (mkMetadata (splitext (basename p)).1 (lit "from_pdf") now
                (basename p) (abspath (cwd (world st)) p) (length (f_data f))
                (if healthy f then hexdigest (f_data f) else [])
                (isoformat (f_mtime f)) (ed_total_pages ed)
                (ed_total_characters ed) (length (ed_pages ed)) now)
             (mkContent (ed_full_text ed) (ed_pages ed))),
       tick st)
  | None => (Raise FileNotFoundError, st)
  end.
Proof.
  unfold create_json_structure. rewrite bind_run. simpl.
  rewrite bind_run, lift_run. unfold stat.
  destruct (files (world st) !! p) as [f|] eqn:Hf; [|done].
  rewrite bind_run, compute_file_hash_run, Hf.
  by rewrite bind_run.
Qed.

Lemma write_file_Ok (w w' : World) (p : str) (data : list byte) :
  write_file w p data = Ok w' →
  w' = mkWorld (<[p := mkFile data (clock w) true None]> (files w))
         (dirs w) (denied w) (cwd w) (clock w).
Proof.
  unfold write_file. repeat case_match; try done. by intros [= <-].
Qed.

Lemma makedirs_Ok (w w' : World) (d : str) :
  makedirs w d = Ok w' →
  w' = mkWorld (files w) ({[d]} ∪ dirs w) (denied w) (cwd w) (clock w).
Proof.
  unfold makedirs. case_match; [done|]. by intros [= <-].
Qed.

End Methods.

(** ** The orchestrator *)

#[local] Arguments validate_config : simpl never.
#[local] Arguments is_valid_pdf : simpl never.
#[local] Arguments extract_text_from_pdf : simpl never.
#[local] Arguments create_json_structure : simpl never.
#[local] Arguments compute_file_hash : simpl never.
#[local] Arguments PdfReader : simpl never.
#[local] Arguments makedirs : simpl never.
#[local] Arguments write_file : simpl never.
#[local] Arguments path_exists : simpl never.
#[local] Arguments dirname : simpl never.
#[local] Arguments basename : simpl never.
#[local] Arguments truthy : simpl never.
#[local] Arguments bump : simpl never.
#[local] Arguments lit : simpl never.
#[local] Arguments status_message : simpl never.
#[local] Arguments validated : simpl never.
#[local] Arguments document_of : simpl never.

(** One step of a run: unfold the leading bind and evaluate its head. *)
Ltac step H := rewrite bind_run in H; simpl in H.

Section Fetch.
Context `{Platform}.

Lemma fetch_inv (st st' : State) (r : Result (list Document)) :
  fetch st = (r, st') →
  ∃ l, r = Ok l ∧
    (l = [] ∨
     ∃ f pgs fo,
       let p := pdf_file_path (self st) in
       let d := document_of (world st) p f (include_page_numbers (self st)) pgs
                  (clock (world st) + 1) in
       config_ok st = true ∧ files (world st) !! p = Some f ∧
       healthy f = true ∧ f_data f ≠ [] ∧ load_pages (world st) p = Ok pgs ∧
       l = [d] ∧
       output_file_path (self st') = output_file_path (self (validated st)) ∧
       files (world st') !! output_file_path (self st') = Some fo ∧
       f_data fo = json_dump d).
Proof.
  unfold fetch. intros Hf.
  apply try_except_nil_inv in Hf as (l & -> & Hl). exists l. split; [done|].
  destruct Hl as [->|Hbody]; [by left|].
  destruct l as [|d l]; [by left | right].
  rewrite bind_run, validate_config_run in Hbody.
  destruct (config_ok st) eqn:Hcfg; [|done]. simpl in Hbody.
  step Hbody. step Hbody. rewrite is_valid_pdf_run in Hbody.
  rewrite world_validated, pdf_file_path_validated in Hbody.
  destruct (PdfReader (world st) (pdf_file_path (self st))) as [rd|e] eqn:Hrd; [|done].
  simpl in Hbody. step Hbody. step Hbody.
  rewrite world_validated, Hrd in Hbody. step Hbody.
  destruct (reader_pages rd) as [pgs|e] eqn:Hpgs; [|done].
  step Hbody. step Hbody.
  rewrite bind_run, extract_text_from_pdf_run in Hbody.
  assert (Hload : load_pages (world st) (pdf_file_path (self st)) = Ok pgs)
    by (unfold load_pages; by rewrite Hrd).
  apply PdfReader_Ok in Hrd as (f & Hfile & Hhealthy & Hne & Hparse).
  rewrite (load_pages_ext _ (world st)) in Hbody
    by (simpl; by rewrite world_validated).
  rewrite Hload in Hbody. simpl in Hbody.
  rewrite bind_run, create_json_structure_run, world_bump in Hbody.
  simpl in Hbody. rewrite world_validated, Hfile in Hbody.
  step Hbody. rewrite world_bump in Hbody. simpl in Hbody.
  apply bind_Ok_inv in Hbody as ([] & s1 & Hmk & Hbody).
  match type of Hmk with
  | _ ?sx = _ => assert (Hs1 : self s1 = self sx)
  end.
  { destruct (truthy _ && negb _) in Hmk.
    - apply bind_Ok_inv in Hmk as (w' & s0 & Hw' & Hput).
      unfold lift in Hw'. injection Hw' as _ <-. by injection Hput as <-.
    - by injection Hmk as <-. }
  clear Hmk. simpl in Hs1.
  step Hbody.
  apply bind_Ok_inv in Hbody as (w' & s2 & Hwrite & Hbody).
  unfold lift in Hwrite. injection Hwrite as Hwrite <-.
  apply write_file_Ok in Hwrite as ->.
  do 5 step Hbody. rewrite Hs1 in Hbody.
  apply bind_Ok_inv in Hbody as ([] & s3 & Hcb & Hbody).
  match type of Hcb with
  | _ ?sx = _ => assert (Hs3 : s3 = sx)
  end.
  { destruct (progress_callback _) in Hcb;
      [unfold lift in Hcb; by injection Hcb as _ <- | by injection Hcb as <-]. }
  clear Hcb. subst s3.
  apply bind_Ok_inv in Hbody as ([] & s4 & Hcb & Hbody).
  match type of Hcb with
  | _ ?sx = _ => assert (Hs4 : s4 = sx)
  end.
  { destruct (status_callback _) in Hcb;
      [unfold lift in Hcb; by injection Hcb as _ <- | by injection Hcb as <-]. }
  clear Hcb. subst s4.
  injection Hbody as <- <- <-.
  exists f, pgs. eexists. simpl.
  rewrite output_file_path_bump. simpl.
  split_and!; try done.
  - unfold document_of. by rewrite include_page_numbers_validated.
  - apply lookup_insert_eq.
  - simpl. unfold document_of. by rewrite include_page_numbers_validated.
Qed.

(** One step of a run in the goal. *)
Ltac stepg := rewrite bind_run; simpl.


End Fetch.

(** ** What a returned document is *)

Section Documents.
Context `{Platform}.

(** Every document [fetch] returns is the only one, was assembled from the
    pages of a healthy, non-empty, parseable file, and has been saved. *)
Lemma fetch_document (st : State) (l : list Document) (d : Document) :
  (fetch st).1 = Ok l → d ∈ l →
  ∃ f pgs fo,
    l = [d] ∧ config_ok st = true ∧
    files (world st) !! pdf_file_path (self st) = Some f ∧
    healthy f = true ∧ f_data f ≠ [] ∧
    load_pages (world st) (pdf_file_path (self st)) = Ok pgs ∧
    d = document_of (world st) (pdf_file_path (self st)) f
          (include_page_numbers (self st)) pgs (clock (world st) + 1) ∧
    files (world (fetch st).2) !! output_file_path (self (fetch st).2) = Some fo ∧
    f_data fo = json_dump d.
Proof.
  intros Hl Hd.
  destruct (fetch_inv st (fetch st).2 (fetch st).1) as (l' & Hl' & Hcases).
  { apply surjective_pairing. }
  assert (l' = l) as -> by congruence.
  destruct Hcases as [->|(f & pgs & fo & Hcfg & Hf & Hh & Hne & Hload & -> & _ & Hfo & Hdata)].
  { by apply elem_of_nil in Hd. }
  apply list_elem_of_singleton in Hd as ->.
  exists f, pgs, fo. split_and!; done.
Qed.


Lemma endswith_lower_ci (p suf : str) :
  lower suf = suf →
  endswith (lower p) suf = true ↔ ends_with_ci p suf.
Proof.
  intros Hsuf. rewrite endswith_spec. unfold ends_with_ci. split.
  - intros [r Hr].
    exists (take (length r) p), (drop (length r) p). split.
    + by rewrite take_drop.
    + unfold lower in *. rewrite Hsuf, fmap_drop, Hr.
      by rewrite drop_app_length.
  - intros (stem & ext & -> & Hext). exists (lower stem).
    rewrite lower_app, Hext. by rewrite Hsuf.
Qed.

Lemma splitext_app (p : str) : (splitext p).1 ++ (splitext p).2 = p.
Proof.
  unfold splitext. repeat case_match; simpl;
    by rewrite ?app_nil_r, ?take_drop.
Qed.

End Documents.

(** * The claims of the specification *)

Section Claims.
Context `{Platform}.

(** C1.  For a document of N pages that all yield non-empty text, the
    document returned by [fetch] has [total_pages = N] and
    [pages_with_text = N], and [content.pages] has exactly N entries whose
    page numbers are 1..N in increasing order. *)
Theorem fetch_all_pages_counted (st : State) (l : list Document) (d : Document)
    (pgs : list Page) :
  (fetch st).1 = Ok l → d ∈ l →
  load_pages (world st) (pdf_file_path (self st)) = Ok pgs →
  forallb yields_text pgs = true →
  total_pages (metadata d) = length pgs ∧
  pages_with_text (metadata d) = length pgs ∧
  length (pages (content d)) = length pgs ∧
  page_number <$> pages (content d) = seq 1 (length pgs).
Proof.
  intros Hl Hd Hload Hall.
  destruct (fetch_document st l d Hl Hd)
    as (f & pgs' & fo & _ & _ & _ & _ & _ & Hload' & -> & _).
  assert (pgs' = pgs) as -> by congruence.
  assert (Hnum : page_number <$> all_entries pgs = seq 1 (length pgs)).
  { apply all_entries_seq. intros pg Hpg.
    rewrite forallb_forall in Hall. apply list_elem_of_In, Hall in Hpg.
    destruct pg as [[|c t]|e]; try done. by exists (c :: t). }
  assert (Hlen : length (all_entries pgs) = length pgs).
  { apply (f_equal length) in Hnum. by rewrite length_fmap, length_seq in Hnum. }
  unfold document_of. simpl. by rewrite Hlen.
Qed.

(** C10.  Every document produced by [fetch] is consistent:
    [total_characters] is the length of [full_text], [pages_with_text] is
    the number of entries of [content.pages], every entry's
    [character_count] is the length of its text, the page numbers grow
    strictly, [data_type] is ["from_pdf"], and [timestamp] equals
    [extraction_timestamp]. *)
Theorem fetch_document_consistent (st : State) (l : list Document) (d : Document) :
  (fetch st).1 = Ok l → d ∈ l →
  total_characters (metadata d) = len (full_text (content d)) ∧
  pages_with_text (metadata d) = length (pages (content d)) ∧
  Forall (λ pd, character_count pd = len (text pd)) (pages (content d)) ∧
  StronglySorted lt (page_number <$> pages (content d)) ∧
  data_type (metadata d) = lit "from_pdf" ∧
  timestamp (metadata d) = extraction_timestamp (metadata d).
Proof.
  intros Hl Hd.
  destruct (fetch_document st l d Hl Hd)
    as (f & pgs & fo & _ & _ & _ & _ & _ & _ & -> & _).
  unfold document_of. simpl. split_and!; try done.
  - eapply Forall_impl; [apply entries_character_count|]. by intros pd [? _].
  - apply entries_seq_sorted.
Qed.




(** C2 (amended).  With [include_page_numbers], [full_text] is the
    newline-join of, for every extracted page in order, the separator
    ["\n--- Page <n> ---\n"] (the separator line with a newline before and
    after it) and the page's text, each as a part of its own; without it,
    [full_text] is the texts of the extracted pages joined by ["\n\n"].  In
    both cases [total_characters] is the length of [full_text]. *)
Theorem extract_full_text_assembly (p : str) (st : State) (ed : ExtractedData) :
  (extract_text_from_pdf p st).1 = Ok ed →
  ed_full_text ed =
    (if include_page_numbers (self st)
     then join [NL]
            (pd ← ed_pages ed;
             [[NL] ++ spec_separator_line (page_number pd) ++ [NL]; text pd])
     else join [NL; NL] (text <$> ed_pages ed)) ∧
  ed_total_characters ed = len (ed_full_text ed).
Proof.
  rewrite extract_text_from_pdf_run.
  destruct (load_pages (world st) p) as [pgs|e]; [|done].
  cbn [fst]. intros [= <-]. cbn [ed_full_text ed_pages ed_total_characters].
  split; [|done].
  unfold assemble_text. destruct (include_page_numbers (self st)); [|done].
  f_equal. unfold formatted_parts. apply list_bind_ext; [|done].
  intros pd. unfold page_separator, spec_separator_line.
  by rewrite <-!(assoc_L (++)).
Qed.

(** C3 (amended).  With [include_page_numbers], [full_text] contains the
    marker ["--- Page <n> ---"] of every extracted page, hence
    ["--- Page 1 ---"] whenever page 1 itself is extracted; without it,
    [full_text] contains ["--- Page 1 ---"] exactly when the extracted text
    of some page contains it. *)
Theorem page_marker_occurrence (p : str) (st : State) (ed : ExtractedData) :
  (extract_text_from_pdf p st).1 = Ok ed →
  (include_page_numbers (self st) = true →
   (∀ pd, pd ∈ ed_pages ed →
      contains (ed_full_text ed) (spec_separator_line (page_number pd)) = true) ∧
   ((∃ pd, pd ∈ ed_pages ed ∧ page_number pd = 1) →
      contains (ed_full_text ed) PAGE_1_MARKER = true)) ∧
  (include_page_numbers (self st) = false →
   (contains (ed_full_text ed) PAGE_1_MARKER = true ↔
    ∃ pd, pd ∈ ed_pages ed ∧ contains (text pd) PAGE_1_MARKER = true)).
Proof.
  rewrite extract_text_from_pdf_run.
  destruct (load_pages (world st) p) as [pgs|e]; [|done].
  cbn [fst]. intros [= <-]. cbn [ed_full_text ed_pages ed_total_characters].
  split; intros ->.
  - assert (Hall : ∀ pd, pd ∈ all_entries pgs →
              contains (assemble_text true (all_entries pgs))
                (spec_separator_line (page_number pd)) = true).
    { intros pd Hpd. by apply assemble_text_numbers_contains. }
    split; [done|]. intros (pd & Hpd & Hone).
    specialize (Hall pd Hpd). by rewrite Hone in Hall.
  - unfold assemble_text. split.
    + intros Hcon.
      apply (contains_join_inv NL) in Hcon as (part & Hpart & Hcon).
      * apply list_elem_of_fmap in Hpart as (pd & -> & Hpd). eauto.
      * done.
      * apply (bool_decide_unpack _). by vm_compute.
      * apply list_elem_of_here.
      * by repeat constructor.
    + intros (pd & Hpd & Hcon).
      eapply contains_trans; [|exact Hcon].
      by apply join_contains, list_elem_of_fmap_2.
Qed.

(** C4.  [validate_config] returns false exactly when [pdf_file_path] is
    empty, names no existing file, or does not end with [".pdf"] up to
    case; and when it returns true with [output_file_path] unset, it sets
    [output_file_path] to the join of the PDF's directory (["."] when the
    path has none) with the PDF's basename whose extension is replaced by
    [".json"]. *)
Theorem validate_config_spec (st : State) :
  (∃ ok, (validate_config st).1 = Ok ok) ∧
  ((validate_config st).1 = Ok false ↔
   pdf_file_path (self st) = [] ∨
   isfile (world st) (pdf_file_path (self st)) = false ∨
   ¬ ends_with_ci (pdf_file_path (self st)) (lit ".pdf")) ∧
  ((validate_config st).1 = Ok true → output_file_path (self st) = [] →
   ∃ stem ext,
     basename (pdf_file_path (self st)) = stem ++ ext ∧
     (stem, ext) = splitext (basename (pdf_file_path (self st))) ∧
     output_file_path (self (validate_config st).2) =
       path_join (str_or (dirname (pdf_file_path (self st))) (lit "."))
         (stem ++ lit ".json")).
Proof.
  rewrite validate_config_run. unfold config_ok.
  assert (Hci : endswith (lower (pdf_file_path (self st))) (lit ".pdf") = true ↔
                ends_with_ci (pdf_file_path (self st)) (lit ".pdf"))
    by by apply endswith_lower_ci.
  destruct (pdf_file_path (self st)) as [|c p] eqn:Hp.
  { simpl. split_and!; [by eexists | split; [by left | done] | done]. }
  change (truthy (c :: p)) with true. cbv [andb].
  destruct (isfile (world st) (c :: p)).
  2:{ simpl. split_and!; [by eexists | split; [right; by left | done] | done]. }
  destruct (endswith (lower (c :: p)) (lit ".pdf")) eqn:Hend.
  - simpl. split_and!; [by eexists | |].
    + split; [done|]. intros [?|[?|Hn]]; [done..|]. destruct Hn. by apply Hci.
    + intros _ Hout. unfold validated. rewrite Hout. simpl.
      exists (splitext (basename (c :: p))).1, (splitext (basename (c :: p))).2.
      split_and!; [by rewrite splitext_app | by destruct (splitext _) |].
      by rewrite Hp.
  - simpl. split_and!; [by eexists | | done].
    split; [|done]. intros _. right. right. intros Hn%Hci. congruence.
Qed.

(** C5.  [fetch] never raises: it always returns a list.  The list is
    empty for a path that names no file and for a path without the [.pdf]
    suffix, in both cases leaving the file system untouched, and for an
    empty file; and a non-empty list holds exactly the one assembled
    document, which by then has been written to the output file. *)
Theorem fetch_never_raises (st : State) :
  (∃ l, (fetch st).1 = Ok l ∧
     (l = [] ∨
      ∃ d fo, l = [d] ∧
        files (world (fetch st).2) !! output_file_path (self (fetch st).2) = Some fo ∧
        f_data fo = json_dump d)) ∧
  (isfile (world st) (pdf_file_path (self st)) = false → fetch st = (Ok [], st)) ∧
  (endswith (lower (pdf_file_path (self st))) (lit ".pdf") = false →
   fetch st = (Ok [], st)) ∧
  (∀ f, files (world st) !! pdf_file_path (self st) = Some f → f_data f = [] →
   (fetch st).1 = Ok []).
Proof.
  assert (Hinvalid : config_ok st = false → fetch st = (Ok [], st)).
  { intros Hcfg. unfold fetch.
    by rewrite try_except_run, bind_run, validate_config_run, Hcfg. }
  destruct (fetch_inv st (fetch st).2 (fetch st).1) as (l & Hl & Hcases);
    [apply surjective_pairing|].
  split_and!.
  - exists l. split; [done|].
    destruct Hcases as [->|(f & pgs & fo & _ & _ & _ & _ & _ & -> & _ & Hfo & Hdata)];
      [by left | right; eauto].
  - intros Hfile. apply Hinvalid. unfold config_ok.
    by rewrite Hfile, andb_false_r.
  - intros Hend. apply Hinvalid. unfold config_ok.
    by rewrite Hend, andb_false_r.
  - intros f Hf Hempty. rewrite Hl. f_equal.
    destruct Hcases as [->|(f' & pgs & fo & _ & Hf' & _ & Hne & _)]; [done|].
    congruence.
Qed.

(** C6.  [compute_file_hash] never raises.  It reads the file in blocks of
    4096 bytes into the SHA-256 object and, when the file can be opened and
    read to its end, returns the lowercase hexadecimal digest of the file's
    bytes; when the file is missing, unreadable or a read fails, it returns
    the empty string. *)
Theorem compute_file_hash_spec (p : str) (st : State) :
  BLOCK_SIZE = 4096 ∧
  ∃ h, compute_file_hash p st = (Ok h, st) ∧
    (∀ f, files (world st) !! p = Some f → healthy f = true →
       read_blocks f 0 [] = Ok (f_data f) ∧
       h = hexdigest (f_data f) ∧
       Forall (λ c, c ∈ lit "0123456789abcdef") h) ∧
    (files (world st) !! p = None → h = []) ∧
    (∀ f, files (world st) !! p = Some f → healthy f = false → h = []).
Proof.
  split; [done|]. rewrite compute_file_hash_run. eexists. split; [done|].
  split_and!.
  - intros f -> Hh. rewrite Hh. split_and!; [|done|apply hexdigest_lowercase_hex].
    rewrite read_blocks_spec. apply andb_true_iff in Hh as [_ Hbad].
    destruct (f_bad_offset f) as [k|]; [|done].
    apply bool_decide_eq_true in Hbad. case_bool_decide; [lia|done].
  - by intros ->.
  - by intros f -> ->.
Qed.

(** C8.  Two conversions of the same bytes with the same
    [include_page_numbers] setting yield the same [full_text] and the same
    [pdf_file_hash], which is the digest of the bytes alone. *)
Theorem fetch_same_bytes_same_text (st1 st2 : State) (f1 f2 : File)
    (d1 d2 : Document) :
  files (world st1) !! pdf_file_path (self st1) = Some f1 →
  files (world st2) !! pdf_file_path (self st2) = Some f2 →
  f_data f1 = f_data f2 →
  include_page_numbers (self st1) = include_page_numbers (self st2) →
  (fetch st1).1 = Ok [d1] → (fetch st2).1 = Ok [d2] →
  full_text (content d1) = full_text (content d2) ∧
  pdf_file_hash (metadata d1) = pdf_file_hash (metadata d2) ∧
  pdf_file_hash (metadata d1) = hexdigest (f_data f1).
Proof.
  intros Hf1 Hf2 Hdata Hflag Hd1 Hd2.
  destruct (fetch_document st1 [d1] d1 Hd1 (list_elem_of_here _ _))
    as (f1' & pgs1 & _ & _ & _ & Hf1' & Hh1 & _ & Hload1 & -> & _).
  destruct (fetch_document st2 [d2] d2 Hd2 (list_elem_of_here _ _))
    as (f2' & pgs2 & _ & _ & _ & Hf2' & Hh2 & _ & Hload2 & -> & _).
  assert (f1' = f1) as -> by congruence.
  assert (f2' = f2) as -> by congruence.
  apply load_pages_Ok in Hload1 as (g1 & rd1 & Hg1 & _ & _ & Hparse1 & Hpgs1).
  apply load_pages_Ok in Hload2 as (g2 & rd2 & Hg2 & _ & _ & Hparse2 & Hpgs2).
  assert (g1 = f1) as -> by congruence.
  assert (g2 = f2) as -> by congruence.
  assert (pgs1 = pgs2) as -> by congruence.
  unfold document_of. simpl. rewrite Hh1, Hh2, Hflag, Hdata. done.
Qed.

End Claims.

(** * Further properties of the converter *)

(** ** Lengths of joined texts *)

Lemma join_length (sep : str) (parts : list str) :
  length (join sep parts)
  = sum_list_with length parts + length sep * (length parts - 1).
Proof.
  induction parts as [|p parts IH]; [simpl; lia|].
  destruct parts as [|q parts].
  - simpl. lia.
  - change (join sep (p :: q :: parts)) with (p ++ sep ++ join sep (q :: parts)).
    rewrite !length_app, IH. simpl. lia.
Qed.

Lemma page_separator_length (n : nat) :
  length (page_separator n) = 15 + length (str_of_nat n).
Proof.
  unfold page_separator. rewrite !length_app. simpl.
  change (length (lit "--- Page ")) with 9. lia.
Qed.

Lemma formatted_parts_length (pages : list PageData) :
  length (formatted_parts pages) = 2 * length pages ∧
  sum_list_with length (formatted_parts pages)
  = sum_list_with
      (λ pd, length (text pd) + 15 + length (str_of_nat (page_number pd))) pages.
Proof.
  induction pages as [|pd pages [IH1 IH2]]; [done|].
  rewrite formatted_parts_cons.
  cbn [length sum_list_with]. rewrite IH1, IH2, page_separator_length.
  split; lia.
Qed.

Lemma self_bump (n : nat) (st : State) :
  self (bump n st) = set_processed_items (_processed_items (self st) + n) (self st).
Proof.
  revert st. induction n as [|n IH]; intros st.
  - change (bump 0 st) with st. rewrite Nat.add_0_r. by destruct st as [[] ?].
  - change (bump (S n) st)
      with (bump n (mkState (set_processed_items (_processed_items (self st) + 1)
                               (self st)) (world st))).
    rewrite IH. unfold set_processed_items. simpl. f_equal. lia.
Qed.

Lemma truthy_app_r (a b : str) : truthy b = true → truthy (a ++ b) = true.
Proof. unfold truthy. by destruct a, b. Qed.

Section Extras.
Context `{Platform}.

(** ** [extract_text_from_pdf] *)

(** X1.  [extract_text_from_pdf] raises exactly when the document cannot
    be opened or its pages cannot be loaded; it then re-raises that
    exception and leaves the instance and the file system as they were.
    A page that fails never makes it raise. *)
Theorem extract_text_raises_iff (p : str) (st : State) (e : exn) :
  ((extract_text_from_pdf p st).1 = Raise e ↔ load_pages (world st) p = Raise e) ∧
  ((extract_text_from_pdf p st).1 = Raise e → (extract_text_from_pdf p st).2 = st).
Proof.
  rewrite extract_text_from_pdf_run.
  destruct (load_pages (world st) p) as [pgs|e']; simpl.
  - split; [split|]; done.
  - split; [split|]; [by intros [= ->] | by intros [= ->] | done].
Qed.

(** X2.  A successful extraction counts one processed item per page entry
    it returns, and changes nothing else: no other attribute of the
    instance and nothing in the file system. *)
Theorem extract_text_counts_pages (p : str) (st : State) (ed : ExtractedData) :
  (extract_text_from_pdf p st).1 = Ok ed →
  self (extract_text_from_pdf p st).2
  = set_processed_items (_processed_items (self st) + length (ed_pages ed)) (self st) ∧
  world (extract_text_from_pdf p st).2 = world st.
Proof.
  rewrite extract_text_from_pdf_run.
  destruct (load_pages (world st) p) as [pgs|e]; [|done].
  cbn [fst snd]. intros [= <-]. cbn [ed_pages].
  by rewrite self_bump, world_bump.
Qed.

(** X3.  The entries of a successful extraction are exactly the pages
    whose extraction returned a non-empty text, each with its 1-based
    position and the length of its text; there are at most [total_pages]
    of them and [total_pages] is the number of pages of the document. *)
Theorem extract_text_entries (p : str) (st : State) (ed : ExtractedData)
    (pgs : list Page) :
  load_pages (world st) p = Ok pgs →
  (extract_text_from_pdf p st).1 = Ok ed →
  (∀ pd, pd ∈ ed_pages ed ↔
     ∃ i t, pgs !! i = Some (Ok t) ∧ t ≠ [] ∧ pd = mkPageData (i + 1) t (len t)) ∧
  ed_total_pages ed = length pgs ∧
  length (ed_pages ed) ≤ ed_total_pages ed.
Proof.
  intros Hload. rewrite extract_text_from_pdf_run, Hload.
  cbn [fst]. intros [= <-]. cbn [ed_pages ed_total_pages]. split_and!.
  - intros pd. unfold all_entries. rewrite elem_of_entries. split.
    + intros (i & t & _ & ? & ? & ?). by exists i, t.
    + intros (i & t & Hi & ? & ?). exists i, t. split_and!; try done.
      apply elem_of_seq. apply lookup_lt_Some in Hi. lia.
  - done.
  - pose proof (entries_length_le pgs (seq 0 (length pgs))) as Hle.
    by rewrite length_seq in Hle.
Qed.

(** X4.  Without page numbers, [total_characters] is the sum of the
    entries' [character_count] plus two characters for each of the
    separators between consecutive entries. *)
Theorem total_characters_plain (p : str) (st : State) (ed : ExtractedData) :
  include_page_numbers (self st) = false →
  (extract_text_from_pdf p st).1 = Ok ed →
  ed_total_characters ed
  = sum_list_with character_count (ed_pages ed) + 2 * (length (ed_pages ed) - 1).
Proof.
  intros Hflag. rewrite extract_text_from_pdf_run.
  destruct (load_pages (world st) p) as [pgs|e]; [|done].
  cbn [fst]. intros [= <-]. cbn [ed_pages ed_total_characters].
  rewrite Hflag. unfold assemble_text, len. rewrite join_length, length_fmap.
  simpl length. f_equal.
  pose proof (entries_character_count pgs (seq 0 (length pgs))) as Hcc.
  fold (all_entries pgs) in Hcc.
  induction Hcc as [|pd pages [Hpd _] _ IH]; [done|].
  cbn [fmap list_fmap sum_list_with]. rewrite Hpd. unfold len. by f_equal.
Qed.


(** X5.  With page numbers, every entry adds to [total_characters] its
    [character_count], the 15 fixed characters of its separator and the
    digits of its page number, and the 2n parts are joined by 2n-1
    newlines. *)
Theorem total_characters_numbered (p : str) (st : State) (ed : ExtractedData) :
  include_page_numbers (self st) = true →
  (extract_text_from_pdf p st).1 = Ok ed →
  ed_total_characters ed
  = sum_list_with
      (λ pd, character_count pd + 15 + length (str_of_nat (page_number pd)))
      (ed_pages ed)
    + (2 * length (ed_pages ed) - 1).
Proof.
  intros Hflag. rewrite extract_text_from_pdf_run.
  destruct (load_pages (world st) p) as [pgs|e]; [|done].
  cbn [fst]. intros [= <-]. cbn [ed_pages ed_total_characters].
  rewrite Hflag. unfold assemble_text, len. rewrite join_length.
  destruct (formatted_parts_length (all_entries pgs)) as [-> ->].
  simpl length. rewrite Nat.mul_1_l. f_equal.
  pose proof (entries_character_count pgs (seq 0 (length pgs))) as Hcc.
  fold (all_entries pgs) in Hcc.
  induction Hcc as [|pd pages [Hpd _] _ IH]; [done|].
  cbn [sum_list_with]. rewrite Hpd. unfold len. by f_equal.
Qed.

(** X6.  In both modes [full_text] is empty exactly when no page was
    extracted. *)
Theorem full_text_empty_iff (p : str) (st : State) (ed : ExtractedData) :
  (extract_text_from_pdf p st).1 = Ok ed →
  ed_full_text ed = [] ↔ ed_pages ed = [].
Proof.
  intros Hed.
  assert (Htotal : ed_total_characters ed = length (ed_full_text ed)).
  { revert Hed. rewrite extract_text_from_pdf_run.
    destruct (load_pages (world st) p) as [pgs|e]; [|done].
    cbn [fst]. by intros [= <-]. }
  assert (Hpos : Forall (λ pd, 0 < character_count pd) (ed_pages ed)).
  { revert Hed. rewrite extract_text_from_pdf_run.
    destruct (load_pages (world st) p) as [pgs|e]; [|done].
    cbn [fst]. intros [= <-]. cbn [ed_pages].
    eapply Forall_impl; [apply entries_character_count|].
    intros pd [-> Hne]. unfold len. destruct (text pd); [done | simpl; lia]. }
  rewrite <-length_zero_iff_nil, <-Htotal.
  destruct (include_page_numbers (self st)) eqn:Hflag.
  - rewrite (total_characters_numbered p st ed Hflag Hed).
    destruct (ed_pages ed) as [|pd pages]; [done|].
    cbn [sum_list_with length]. split; [lia | done].
  - rewrite (total_characters_plain p st ed Hflag Hed).
    destruct (ed_pages ed) as [|pd pages]; [done|].
    apply Forall_cons in Hpos as [Hpd _].
    cbn [sum_list_with length]. split; [lia | done].
Qed.

(** ** [is_valid_pdf] *)

(** X7.  [is_valid_pdf] never raises and changes nothing.  It answers
    true exactly for an existing, non-empty file that can be opened, read
    to its end and parsed; whether the pages of the parsed document can be
    loaded plays no part. *)
Theorem is_valid_pdf_iff (p : str) (st : State) :
  ∃ valid, is_valid_pdf p st = (Ok valid, st) ∧
    (valid = true ↔
     ∃ f rd, files (world st) !! p = Some f ∧ healthy f = true ∧
             f_data f ≠ [] ∧ pdf_parse (f_data f) = Ok rd).
Proof.
  rewrite is_valid_pdf_run. eexists. split; [done|].
  destruct (PdfReader (world st) p) as [rd|e] eqn:Hrd.
  - split; [|done]. intros _.
    apply PdfReader_Ok in Hrd as (f & ? & ? & ? & ?). by exists f, rd.
  - split; [done|]. intros (f & rd & Hf & Hh & Hne & Hparse).
    assert (PdfReader (world st) p = Ok rd) by (apply PdfReader_Ok; eauto).
    congruence.
Qed.

(** ** [create_json_structure] *)


(** ** [validate_config] *)

(** X9.  [validate_config] is idempotent: a second call returns what the
    first returned and changes nothing more. *)
Theorem validate_config_idempotent (st : State) :
  validate_config (validate_config st).2 = validate_config st.
Proof.
  rewrite (validate_config_run st).
  destruct (config_ok st) eqn:Hcfg; cbn [snd].
  - rewrite validate_config_run.
    assert (Hcfg' : config_ok (validated st) = true).
    { unfold config_ok in *.
      by rewrite world_validated, pdf_file_path_validated. }
    rewrite Hcfg'. f_equal. unfold validated.
    destruct (truthy (output_file_path (self st))) eqn:Hout; [by rewrite Hout|].
    cbn [self output_file_path set_output_file_path].
    assert (Hdef : truthy (default_output (pdf_file_path (self st))) = true).
    { unfold default_output, path_join.
      repeat case_match; by repeat apply truthy_app_r. }
    by rewrite Hdef.
  - by rewrite validate_config_run, Hcfg.
Qed.

(** X10.  [validate_config] never touches the file system, never changes
    any attribute but [output_file_path], and keeps an [output_file_path]
    that was given; a failed validation changes nothing at all. *)
Theorem validate_config_frame (st : State) :
  world (validate_config st).2 = world st ∧
  (∃ out, self (validate_config st).2 = set_output_file_path out (self st)) ∧
  (output_file_path (self st) ≠ [] → (validate_config st).2 = st) ∧
  ((validate_config st).1 = Ok false → (validate_config st).2 = st).
Proof.
  rewrite validate_config_run. unfold validated.
  destruct (config_ok st); cbn [fst snd].
  - destruct (output_file_path (self st)) as [|c out] eqn:Hout.
    + change (truthy []) with false. cbn [self world]. split_and!; try done.
      by eexists.
    + change (truthy (c :: out)) with true. split_and!; try done.
      exists (c :: out). rewrite <-Hout. by destruct st as [[] ?].
  - split_and!; try done. exists (output_file_path (self st)).
    by destruct st as [[] ?].
Qed.

(** X11.  For a PDF [stem.ext] in a directory [d] (the path is
    [d/stem.ext], [d] not ending in a slash, [stem] not made of dots only)
    a successful [validate_config] with no output path given sets the
    output path to [d/stem.json]. *)
Theorem validate_config_default_in_directory (st : State)
    (d' stem ext : str) (x c : N) :
  pdf_file_path (self st) = (d' ++ [x]) ++ SLASH :: stem ++ DOT :: ext →
  x ≠ SLASH → c ∈ stem → c ≠ DOT →
  SLASH ∉ stem → SLASH ∉ ext → DOT ∉ ext →
  output_file_path (self st) = [] →
  (validate_config st).1 = Ok true →
  output_file_path (self (validate_config st).2)
  = (d' ++ [x]) ++ SLASH :: stem ++ lit ".json".
Proof.
  intros Hp Hx Hc Hdot Hstem Hext Hnodot Hout.
  rewrite validate_config_run. destruct (config_ok st); [|done].
  intros _. cbn [snd]. unfold validated. rewrite Hout.
  change (truthy []) with false. cbn [self output_file_path set_output_file_path].
  rewrite Hp. by apply (default_output_shape d' stem ext x c).
Qed.


(** ** [fetch], path by path *)

(** One step of a run in the goal. *)
Ltac stepg := rewrite bind_run; simpl.

(** The four ways the two callbacks may end. *)
Ltac callbacks_cases :=
  repeat match goal with
         | |- _ => progress simpl
         | |- _ => rewrite bind_run
         | |- context [match ?o with Some _ => _ | None => _ end] =>
             let cb := fresh "cb" in destruct o as [cb|]
         | |- context [match ?r with Ok _ => _ | Raise _ => _ end] => destruct r
         end; done.

Lemma fetch_run (st : State) : fetch st = fetch_outcome st.
Proof.
  unfold fetch, fetch_outcome.
  rewrite try_except_run, bind_run, validate_config_run.
  destruct (config_ok st) eqn:Hcfg; [|done].
  simpl. stepg. stepg. rewrite is_valid_pdf_run.
  rewrite world_validated, pdf_file_path_validated.
  unfold load_pages.
  destruct (PdfReader (world st) (pdf_file_path (self st))) as [rd|e] eqn:Hrd;
    [|done].
  simpl. stepg. stepg. rewrite world_validated, Hrd. stepg.
  destruct (reader_pages rd) as [pgs|e] eqn:Hpgs; [|done].
  assert (Hload : load_pages (world st) (pdf_file_path (self st)) = Ok pgs)
    by (unfold load_pages; by rewrite Hrd).
  apply PdfReader_Ok in Hrd as (f & Hfile & Hhealthy & Hne & Hparse).
  rewrite Hfile.
  stepg. stepg.
  rewrite bind_run, extract_text_from_pdf_run.
  rewrite (load_pages_ext _ (world st)) by (simpl; by rewrite world_validated).
  rewrite Hload. simpl.
  rewrite bind_run, create_json_structure_run, world_bump.
  simpl. rewrite world_validated, Hfile.
  stepg. rewrite world_bump. simpl.
  unfold tick, with_self, with_world.
  rewrite ?world_bump. simpl. rewrite ?world_bump. simpl.
  rewrite ?world_validated.
  unfold document_of. rewrite !include_page_numbers_validated.
  set (d := mkDocument _ _).
  set (w := mkWorld _ _ _ _ (clock (world st) + 1 + 1)).
  set (out := output_file_path (self (validated st))).
  unfold prepare_dir, run_callbacks. rewrite bind_run.
  destruct (truthy (dirname out) && negb (path_exists w (dirname out))).
  - stepg. destruct (makedirs w (dirname out)) as [w1|e]; [|done].
    simpl. stepg. destruct (write_file w1 out (json_dump d)) as [w2|e]; [|done].
    simpl. do 5 stepg. callbacks_cases.
  - simpl. stepg. rewrite ?world_bump. simpl. fold w.
    destruct (write_file w out (json_dump d)) as [w2|e]; [|done].
    simpl. do 5 stepg. callbacks_cases.
Qed.

(** ** Saving the output *)

Lemma prepare_dir_frame (w w1 : World) (d : str) :
  prepare_dir w d = Ok w1 →
  files w1 = files w ∧ denied w1 = denied w ∧ cwd w1 = cwd w ∧
  clock w1 = clock w ∧ dirs w ⊆ dirs w1 ∧ dirs w1 ⊆ {[d]} ∪ dirs w.
Proof.
  unfold prepare_dir, makedirs.
  destruct (truthy d && negb (path_exists w d)).
  - case_bool_decide; [done|]. intros [= <-]. simpl.
    split_and!; try done; set_solver.
  - intros [= <-]. split_and!; try done; set_solver.
Qed.


Lemma save_fails (w : World) (out : str) (data : list byte) :
  truthy out = true →
  can_save w out = false →
  match prepare_dir w (dirname out) with
  | Raise _ => True
  | Ok w1 => ∃ e, write_file w1 out data = Raise e
  end.
Proof.
  unfold can_save, prepare_dir, path_exists, makedirs, write_file.
  intros Hout Hsave.
  destruct (truthy (dirname out)) eqn:Htruthy; simpl in *.
  - destruct (isfile w (dirname out)) eqn:Hfile; simpl in *.
    + rewrite ?Htruthy. repeat case_bool_decide; simpl in *; try done; eauto; exfalso; congruence.
    + destruct (bool_decide (dirname out ∈ dirs w)) eqn:Hex; simpl in *.
      * rewrite ?Htruthy. repeat case_bool_decide; simpl in *; try done; eauto; exfalso; congruence.
      * destruct (bool_decide (dirname out ∈ denied w)) eqn:Hdd; [done|].
        simpl. rewrite ?Htruthy.
        apply bool_decide_eq_false in Hex, Hdd.
        repeat case_bool_decide; simpl in *; try done; eauto; exfalso;
          first [congruence | set_solver].
  - rewrite ?Htruthy. repeat case_bool_decide; simpl in *; try done; eauto; exfalso; congruence.
Qed.

(** ** [fetch]: failures *)

(** X12.  When the PDF cannot be opened or parsed, or its pages cannot be
    loaded (even though [is_valid_pdf] accepts the file), [fetch] returns
    the empty list and leaves the file system and the clock untouched. *)
Theorem fetch_unloadable_pdf (st : State) (e : exn) :
  load_pages (world st) (pdf_file_path (self st)) = Raise e →
  (fetch st).1 = Ok [] ∧ world (fetch st).2 = world st.
Proof.
  intros Hload. rewrite fetch_run. unfold fetch_outcome. rewrite Hload.
  destruct (config_ok st); [|done].
  cbn [fst snd]. by rewrite world_validated.
Qed.

(** The state in which [fetch] starts saving. *)
Lemma saving_state_world (st : State) (n k : nat) :
  world (tick (bump n (tick (with_self (set_total_items k) (validated st)))))
  = mkWorld (files (world st)) (dirs (world st)) (denied (world st))
      (cwd (world st)) (clock (world st) + 1 + 1).
Proof.
  unfold tick, with_self. cbn [world self]. rewrite !world_bump. cbn [world].
  by rewrite world_validated.
Qed.


Lemma can_save_ext (w1 w2 : World) (out : str) :
  files w1 = files w2 → dirs w1 = dirs w2 → denied w1 = denied w2 →
  can_save w1 out = can_save w2 out.
Proof.
  intros Hf Hd Hn. unfold can_save, isfile. by rewrite Hf, Hd, Hn.
Qed.


Lemma truthy_validated_output (st : State) :
  truthy (output_file_path (self (validated st))) = true.
Proof.
  unfold validated.
  destruct (truthy (output_file_path (self st))) eqn:Hout; [done|].
  cbn [self output_file_path set_output_file_path].
  unfold default_output, path_join.
  repeat case_match; by repeat apply truthy_app_r.
Qed.

(** X14.  When the output cannot be saved (the output path is a
    directory or may not be written, or its directory is a file or can
    neither be found nor created), [fetch] returns the empty list and no
    file is created or changed. *)
Theorem fetch_unsavable_output (st : State) :
  can_save (world st) (output_file_path (self (validated st))) = false →
  (fetch st).1 = Ok [] ∧ files (world (fetch st).2) = files (world st).
Proof.
  intros Hsave. rewrite fetch_run. unfold fetch_outcome.
  destruct (config_ok st); [|done].
  destruct (load_pages _ _) as [pgs|e];
    [|cbn [fst snd]; by rewrite world_validated].
  destruct (files (world st) !! _) as [f|];
    [|cbn [fst snd]; by rewrite world_validated].
  cbv zeta.
  set (d := document_of _ _ _ _ _ _).
  set (out := output_file_path (self (validated st))) in *.
  set (s1 := tick _).
  assert (Hw1 : files (world s1) = files (world st))
    by (unfold s1; by rewrite saving_state_world).
  assert (Hs1 : can_save (world s1) out = false).
  { rewrite <-Hsave. unfold s1. rewrite saving_state_world. by apply can_save_ext. }
  pose proof (save_fails (world s1) out (json_dump d)
                (truthy_validated_output st) Hs1) as Hfail.
  destruct (prepare_dir (world s1) (dirname out)) as [w1|e] eqn:Hprep.
  - destruct Hfail as [e ->]. cbn [fst snd with_world world]. split; [done|].
    apply prepare_dir_frame in Hprep as (-> & _). done.
  - done.
Qed.

(** ** [fetch]: what it leaves alone *)


End Extras.

(** * The claims on concrete runs *)

Lemma fetch_all_pages_counted_witness :
  ∃ d, (fetch demo_two_pages).1 = Ok [d] ∧
       forallb yields_text [Ok (lit "ab"); Ok (lit "cd")] = true ∧
       total_pages (metadata d) = 2 ∧
       pages_with_text (metadata d) = 2 ∧
       length (pages (content d)) = 2 ∧
       page_number <$> pages (content d) = [1; 2].
Proof.
  eexists. split; [vm_compute; reflexivity|]. split; [reflexivity|].
  eapply (fetch_all_pages_counted demo_two_pages _ _ [Ok (lit "ab"); Ok (lit "cd")]).
  - vm_compute; reflexivity.
  - apply list_elem_of_here.
  - vm_compute; reflexivity.
  - reflexivity.
Defined.

Lemma fetch_document_consistent_witness :
  ∃ d, (fetch demo_middle_raises).1 = Ok [d] ∧
       total_characters (metadata d) = len (full_text (content d)) ∧
       pages_with_text (metadata d) = length (pages (content d)) ∧
       Forall (λ pd, character_count pd = len (text pd)) (pages (content d)) ∧
       StronglySorted lt (page_number <$> pages (content d)) ∧
       data_type (metadata d) = lit "from_pdf" ∧
       timestamp (metadata d) = extraction_timestamp (metadata d).
Proof.
  eexists. split; [vm_compute; reflexivity|].
  eapply (fetch_document_consistent demo_middle_raises).
  - vm_compute; reflexivity.
  - apply list_elem_of_here.
Defined.



Lemma extract_full_text_assembly_witness :
  ∃ ed,
    (extract_text_from_pdf (lit "/in/a.pdf") demo_two_pages).1 = Ok ed ∧
    ed_full_text ed =
      join [NL]
        (pd ← ed_pages ed;
         [[NL] ++ spec_separator_line (page_number pd) ++ [NL]; text pd]) ∧
    ed_total_characters ed = len (ed_full_text ed).
Proof.
  eexists. split; [vm_compute; reflexivity|].
  eapply (extract_full_text_assembly (lit "/in/a.pdf") demo_two_pages).
  vm_compute; reflexivity.
Defined.

(** C2, as the specification words it, fails: for a one-page document with
    the text ["a"] the extractor returns ["\n--- Page 1 ---\n\na"], with a
    newline before the separator line and an empty line after it, where the
    specification's wording gives ["--- Page 1 ---\na"]. *)
Lemma full_text_differs_from_spec_wording :
  ∃ ed,
    (extract_text_from_pdf (lit "/in/a.pdf") (demo_one_page true)).1 = Ok ed ∧
    ed_pages ed = [mkPageData 1 (lit "a") 1] ∧
    ed_full_text ed = [NL] ++ lit "--- Page 1 ---" ++ [NL; NL] ++ lit "a" ∧
    spec_full_text true (ed_pages ed) = lit "--- Page 1 ---" ++ [NL] ++ lit "a" ∧
    ed_full_text ed ≠ spec_full_text true (ed_pages ed).
Proof.
  eexists. split; [vm_compute; reflexivity|].
  split; [reflexivity|]. split; [reflexivity|]. split; [reflexivity|].
  vm_compute. discriminate.
Qed.

Lemma page_marker_occurrence_witness :
  ∃ ed,
    (extract_text_from_pdf (lit "/in/a.pdf") demo_two_pages).1 = Ok ed ∧
    (include_page_numbers (self demo_two_pages) = true →
     (∀ pd, pd ∈ ed_pages ed →
        contains (ed_full_text ed) (spec_separator_line (page_number pd)) = true) ∧
     ((∃ pd, pd ∈ ed_pages ed ∧ page_number pd = 1) →
        contains (ed_full_text ed) PAGE_1_MARKER = true)) ∧
    (include_page_numbers (self demo_two_pages) = false →
     (contains (ed_full_text ed) PAGE_1_MARKER = true ↔
      ∃ pd, pd ∈ ed_pages ed ∧ contains (text pd) PAGE_1_MARKER = true)).
Proof.
  eexists. split; [vm_compute; reflexivity|].
  eapply (page_marker_occurrence (lit "/in/a.pdf") demo_two_pages).
  vm_compute; reflexivity.
Defined.

(** C3, as stated, fails on both sides: with page numbers, a document
    whose first page raises and whose second page is extracted has no
    ["--- Page 1 ---"] in its text; without page numbers, a page whose own
    text is ["--- Page 1 ---"] puts that substring into the text. *)
Lemma page_1_marker_counterexample :
  (∃ ed,
     (extract_text_from_pdf (lit "/in/a.pdf") demo_first_raises).1 = Ok ed ∧
     include_page_numbers (self demo_first_raises) = true ∧
     ed_pages ed = [mkPageData 2 (lit "a") 1] ∧
     contains (ed_full_text ed) PAGE_1_MARKER = false) ∧
  (∃ ed,
     (extract_text_from_pdf (lit "/in/a.pdf") demo_marker_text).1 = Ok ed ∧
     include_page_numbers (self demo_marker_text) = false ∧
     contains (ed_full_text ed) PAGE_1_MARKER = true).
Proof.
  split.
  - eexists. split; [vm_compute; reflexivity|]. by vm_compute.
  - eexists. split; [vm_compute; reflexivity|]. by vm_compute.
Qed.

Lemma validate_config_spec_witness :
  (validate_config demo_two_pages).1 = Ok true ∧
  output_file_path (self demo_two_pages) = [] ∧
  output_file_path (self (validate_config demo_two_pages).2) = lit "/in/a.json".
Proof.
  split; [vm_compute; reflexivity|]. split; [reflexivity|].
  destruct (validate_config_spec demo_two_pages) as (_ & _ & Hout).
  destruct Hout as (stem & ext & _ & Hsplit & ->);
    [vm_compute; reflexivity | reflexivity |].
  vm_compute in Hsplit. injection Hsplit as -> ->.
  vm_compute; reflexivity.
Defined.

Lemma fetch_never_raises_witness :
  (isfile (world demo_missing) (pdf_file_path (self demo_missing)) = false ∧
   fetch demo_missing = (Ok [], demo_missing)) ∧
  (endswith (lower (pdf_file_path (self demo_not_pdf))) (lit ".pdf") = false ∧
   fetch demo_not_pdf = (Ok [], demo_not_pdf)) ∧
  (files (world demo_empty_file) !! pdf_file_path (self demo_empty_file)
     = Some (demo_file "") ∧
   (fetch demo_empty_file).1 = Ok []).
Proof.
  split_and!.
  - vm_compute; reflexivity.
  - destruct (fetch_never_raises demo_missing) as (_ & Hmissing & _).
    apply Hmissing. vm_compute; reflexivity.
  - vm_compute; reflexivity.
  - destruct (fetch_never_raises demo_not_pdf) as (_ & _ & Hsuffix & _).
    apply Hsuffix. vm_compute; reflexivity.
  - vm_compute; reflexivity.
  - destruct (fetch_never_raises demo_empty_file) as (_ & _ & _ & Hempty).
    apply (Hempty (demo_file "")); [vm_compute; reflexivity | reflexivity].
Defined.

Lemma compute_file_hash_spec_witness :
  (compute_file_hash (lit "/in/a.pdf") demo_two_pages).1
    = Ok (hexdigest (demo_bytes (lit "ab|cd"))) ∧
  (compute_file_hash (lit "/in/a.pdf") demo_unreadable).1 = Ok [] ∧
  (compute_file_hash (lit "/in/none.pdf") demo_two_pages).1 = Ok [].
Proof.
  split_and!.
  - destruct (compute_file_hash_spec (lit "/in/a.pdf") demo_two_pages)
      as (_ & h & -> & Hhealthy & _).
    destruct (Hhealthy (demo_file "ab|cd")) as (_ & -> & _);
      [vm_compute; reflexivity | reflexivity | reflexivity].
  - destruct (compute_file_hash_spec (lit "/in/a.pdf") demo_unreadable)
      as (_ & h & -> & _ & _ & Hfail).
    rewrite (Hfail (mkFile (demo_bytes (lit "ab")) 1700000000 false None));
      [reflexivity | vm_compute; reflexivity | reflexivity].
  - destruct (compute_file_hash_spec (lit "/in/none.pdf") demo_two_pages)
      as (_ & h & -> & _ & Hnone & _).
    rewrite Hnone; [reflexivity | vm_compute; reflexivity].
Defined.

Lemma fetch_same_bytes_same_text_witness :
  ∃ d1 d2,
    (fetch demo_two_pages).1 = Ok [d1] ∧
    (fetch demo_two_pages_later).1 = Ok [d2] ∧
    timestamp (metadata d1) ≠ timestamp (metadata d2) ∧
    full_text (content d1) = full_text (content d2) ∧
    pdf_file_hash (metadata d1) = pdf_file_hash (metadata d2) ∧
    pdf_file_hash (metadata d1) = hexdigest (demo_bytes (lit "ab|cd")).
Proof.
  eexists _, _.
  split; [vm_compute; reflexivity|].
  split; [vm_compute; reflexivity|].
  split; [by vm_compute|].
  eapply (fetch_same_bytes_same_text demo_two_pages demo_two_pages_later
            (demo_file "ab|cd")
            (mkFile (demo_bytes (lit "ab|cd")) 1700000555 true None)).
  - vm_compute; reflexivity.
  - vm_compute; reflexivity.
  - reflexivity.
  - reflexivity.
  - vm_compute; reflexivity.
  - vm_compute; reflexivity.
Defined.

(** * The further properties on concrete runs *)

Lemma extract_text_raises_iff_witness :
  load_pages (world demo_unparseable) (lit "/in/a.pdf") = Raise PdfReadError ∧
  (extract_text_from_pdf (lit "/in/a.pdf") demo_unparseable).1 = Raise PdfReadError ∧
  (extract_text_from_pdf (lit "/in/a.pdf") demo_unparseable).2 = demo_unparseable.
Proof.
  destruct (extract_text_raises_iff (lit "/in/a.pdf") demo_unparseable PdfReadError)
    as [Hiff Hstate].
  assert (Hload : load_pages (world demo_unparseable) (lit "/in/a.pdf")
                  = Raise PdfReadError) by (vm_compute; reflexivity).
  split; [exact Hload|]. split; [by apply Hiff | by apply Hstate, Hiff].
Defined.

Lemma extract_text_counts_pages_witness :
  ∃ ed,
    (extract_text_from_pdf (lit "/in/a.pdf") demo_middle_raises).1 = Ok ed ∧
    length (ed_pages ed) = 2 ∧
    self (extract_text_from_pdf (lit "/in/a.pdf") demo_middle_raises).2
    = set_processed_items
        (_processed_items (self demo_middle_raises) + length (ed_pages ed))
        (self demo_middle_raises) ∧
    world (extract_text_from_pdf (lit "/in/a.pdf") demo_middle_raises).2
    = world demo_middle_raises.
Proof.
  eexists. split; [vm_compute; reflexivity|]. split; [reflexivity|].
  eapply (extract_text_counts_pages (lit "/in/a.pdf") demo_middle_raises).
  vm_compute; reflexivity.
Defined.

Lemma extract_text_entries_witness :
  ∃ ed,
    load_pages (world demo_middle_raises) (lit "/in/a.pdf")
      = Ok [Ok (lit "ab"); Raise PageError; Ok (lit "cd")] ∧
    (extract_text_from_pdf (lit "/in/a.pdf") demo_middle_raises).1 = Ok ed ∧
    (∀ pd, pd ∈ ed_pages ed ↔
       ∃ i t, [Ok (lit "ab"); Raise PageError; Ok (lit "cd")] !! i = Some (Ok t) ∧
              t ≠ [] ∧ pd = mkPageData (i + 1) t (len t)) ∧
    ed_total_pages ed = 3 ∧
    length (ed_pages ed) ≤ ed_total_pages ed.
Proof.
  eexists. split; [vm_compute; reflexivity|].
  split; [vm_compute; reflexivity|].
  eapply (extract_text_entries (lit "/in/a.pdf") demo_middle_raises).
  - vm_compute; reflexivity.
  - vm_compute; reflexivity.
Defined.

Lemma total_characters_plain_witness :
  ∃ ed,
    include_page_numbers (self demo_plain) = false ∧
    (extract_text_from_pdf (lit "/in/a.pdf") demo_plain).1 = Ok ed ∧
    ed_total_characters ed = 6 ∧
    ed_total_characters ed
    = sum_list_with character_count (ed_pages ed) + 2 * (length (ed_pages ed) - 1).
Proof.
  eexists. split; [reflexivity|]. split; [vm_compute; reflexivity|].
  split; [reflexivity|].
  eapply (total_characters_plain (lit "/in/a.pdf") demo_plain).
  - reflexivity.
  - vm_compute; reflexivity.
Defined.

Lemma total_characters_numbered_witness :
  ∃ ed,
    include_page_numbers (self demo_two_pages) = true ∧
    (extract_text_from_pdf (lit "/in/a.pdf") demo_two_pages).1 = Ok ed ∧
    ed_total_characters ed = 39 ∧
    ed_total_characters ed
    = sum_list_with
        (λ pd, character_count pd + 15 + length (str_of_nat (page_number pd)))
        (ed_pages ed)
      + (2 * length (ed_pages ed) - 1).
Proof.
  eexists. split; [reflexivity|]. split; [vm_compute; reflexivity|].
  split; [reflexivity|].
  eapply (total_characters_numbered (lit "/in/a.pdf") demo_two_pages).
  - reflexivity.
  - vm_compute; reflexivity.
Defined.

Lemma full_text_empty_iff_witness :
  ∃ ed,
    (extract_text_from_pdf (lit "/in/a.pdf") demo_no_text).1 = Ok ed ∧
    ed_pages ed = [] ∧
    (ed_full_text ed = [] ↔ ed_pages ed = []).
Proof.
  eexists. split; [vm_compute; reflexivity|]. split; [reflexivity|].
  eapply (full_text_empty_iff (lit "/in/a.pdf") demo_no_text).
  vm_compute; reflexivity.
Defined.

Lemma validate_config_default_in_directory_witness :
  pdf_file_path (self demo_two_pages)
    = (lit "/i" ++ [110%N]) ++ SLASH :: lit "a" ++ DOT :: lit "pdf" ∧
  (validate_config demo_two_pages).1 = Ok true ∧
  output_file_path (self (validate_config demo_two_pages).2)
    = (lit "/i" ++ [110%N]) ++ SLASH :: lit "a" ++ lit ".json".
Proof.
  split; [reflexivity|]. split; [vm_compute; reflexivity|].
  apply (validate_config_default_in_directory demo_two_pages
           (lit "/i") (lit "a") (lit "pdf") 110%N 97%N).
  - reflexivity.
  - done.
  - apply (bool_decide_unpack _). by vm_compute.
  - done.
  - apply (bool_decide_unpack _). by vm_compute.
  - apply (bool_decide_unpack _). by vm_compute.
  - apply (bool_decide_unpack _). by vm_compute.
  - reflexivity.
  - vm_compute; reflexivity.
Defined.

Lemma fetch_unloadable_pdf_witness :
  (is_valid_pdf (lit "/in/a.pdf") demo_unpageable).1 = Ok true ∧
  load_pages (world demo_unpageable) (pdf_file_path (self demo_unpageable))
    = Raise PdfReadError ∧
  (fetch demo_unpageable).1 = Ok [] ∧
  world (fetch demo_unpageable).2 = world demo_unpageable.
Proof.
  split; [vm_compute; reflexivity|]. split; [vm_compute; reflexivity|].
  apply (fetch_unloadable_pdf demo_unpageable PdfReadError).
  vm_compute; reflexivity.
Defined.


Lemma fetch_unsavable_output_witness :
  can_save (world demo_output_denied)
    (output_file_path (self (validated demo_output_denied))) = false ∧
  (fetch demo_output_denied).1 = Ok [] ∧
  files (world (fetch demo_output_denied).2) = files (world demo_output_denied).
Proof.
  split; [vm_compute; reflexivity|].
  apply (fetch_unsavable_output demo_output_denied).
  vm_compute; reflexivity.
Defined.
